(** * markdown-toc: table-of-contents generation and injection

    A shallow embedding of [markdown-toc.py] (functions [heading_to_anchor],
    [extract_headings], [generate_toc], [insert_toc] and the pipeline of
    [main]) together with the properties its specification states.

    Strings.  A Python [str] is modelled by [string], whose characters are
    the 256 code points U+0000..U+00FF (Latin-1).  The character tables
    used by the program ([str.isspace] / regex [\s], regex [\w],
    [str.lower]) are the Unicode ones restricted to that range, so the
    non-ASCII letters of Latin-1 behave here as they do in Python. *)

From Stdlib Require Import ZArith NArith Lia Bool Ascii String DecimalString
  Sorted.
From stdpp Require Import base list gmap strings.

Local Open Scope string_scope.

(** ** Characters *)

Module Char.

Definition ord (c : ascii) : N := N_of_ascii c.
Definition chr (n : N) : ascii := ascii_of_N n.

Definition between (lo hi : N) (c : ascii) : bool :=
  ((lo <=? ord c) && (ord c <=? hi))%N.

Definition NL : ascii := chr 10.
Definition TAB : ascii := chr 9.

(** [str.isspace] on one character, which is also what the regex class
    [\s] accepts for a [str] pattern: TAB LF VT FF CR, the separators
    U+001C..U+001F, SPACE, NEL (U+0085) and NBSP (U+00A0). *)
Definition isspace (c : ascii) : bool :=
  between 9 13 c || between 28 32 c || (ord c =? 133)%N || (ord c =? 160)%N.

(** The regex class [\w] for a [str] pattern: [str.isalnum] or ['_'].
    In Latin-1 the alphanumerics are the ASCII digits and letters, the
    ordinal indicators U+00AA and U+00BA, the micro sign U+00B5, the
    superscripts U+00B2 U+00B3 U+00B9, the fractions U+00BC..U+00BE and
    the letters U+00C0..U+00FF except the signs U+00D7 and U+00F7. *)
Definition isalnum (c : ascii) : bool :=
  between 48 57 c || between 65 90 c || between 97 122 c
  || (ord c =? 170)%N || between 178 179 c || (ord c =? 181)%N
  || between 185 186 c || between 188 190 c
  || between 192 214 c || between 216 246 c || between 248 255 c.

Definition isword (c : ascii) : bool := isalnum c || (ord c =? 95)%N.

(** Characters changed by [str.lower]: A..Z and the Latin-1 capitals
    U+00C0..U+00DE except the multiplication sign U+00D7. *)
Definition isupper (c : ascii) : bool :=
  between 65 90 c || between 192 214 c || between 216 222 c.

Definition lower (c : ascii) : ascii :=
  if isupper c then chr (ord c + 32) else c.

Definition is_hash (c : ascii) : bool := (ord c =? 35)%N.
Definition is_hyphen (c : ascii) : bool := (ord c =? 45)%N.
Definition is_backtick (c : ascii) : bool := (ord c =? 96)%N.
Definition is_newline (c : ascii) : bool := (ord c =? 10)%N.

End Char.

(** ** String primitives of the Python runtime *)

Module Str.

Definition nl : string := String Char.NL "".
Definition tab : string := String Char.TAB "".

(** [s.startswith(p)] *)
Definition startswith (s p : string) : bool := String.prefix p s.

(** [s[n:]] for a non-negative [n] *)
Fixpoint drop (n : nat) (s : string) : string :=
  match n, s with
  | S k, String _ r => drop k r
  | _, _ => s
  end.

(** [s[:n]] for a non-negative [n] *)
Fixpoint take (n : nat) (s : string) : string :=
  match n, s with
  | S k, String c r => String c (take k r)
  | _, _ => ""
  end.

Fixpoint all (p : ascii -> bool) (s : string) : bool :=
  match s with
  | "" => true
  | String c r => p c && all p r
  end.

Fixpoint map (f : ascii -> ascii) (s : string) : string :=
  match s with
  | "" => ""
  | String c r => String (f c) (map f r)
  end.

(** Longest prefix of characters satisfying [p], and what follows it. *)
Fixpoint span (p : ascii -> bool) (s : string) : string * string :=
  match s with
  | "" => ("", "")
  | String c r =>
      if p c then let '(a, b) := span p r in (String c a, b) else ("", s)
  end.

Fixpoint lstrip (p : ascii -> bool) (s : string) : string :=
  match s with
  | "" => ""
  | String c r => if p c then lstrip p r else s
  end.

Fixpoint rstrip (p : ascii -> bool) (s : string) : string :=
  match s with
  | "" => ""
  | String c r =>
      match rstrip p r with
      | "" => if p c then "" else String c ""
      | r' => String c r'
      end
  end.

(** [s.strip()] removes [str.isspace] characters at both ends;
    [s.strip('-')] removes hyphens at both ends. *)
Definition strip_with (p : ascii -> bool) (s : string) : string :=
  rstrip p (lstrip p s).

Definition strip (s : string) : string := strip_with Char.isspace s.

(** [s.lower()]; on Latin-1 the mapping is character by character. *)
Definition lower (s : string) : string := map Char.lower s.

(** [s * n]: the empty string when [n] is not positive. *)
Fixpoint repeat_nat (s : string) (n : nat) : string :=
  match n with
  | O => ""
  | S k => s ++ repeat_nat s k
  end.

Definition repeat (s : string) (n : Z) : string := repeat_nat s (Z.to_nat n).

(** [str(n)] for an integer. *)
Definition of_int (n : Z) : string := NilEmpty.string_of_int (Z.to_int n).

(** [s.split('\n')]: never the empty list. *)
Fixpoint split_lines (s : string) : list string :=
  match s with
  | "" => [""]
  | String c r =>
      if Char.is_newline c then "" :: split_lines r
      else match split_lines r with
           | h :: t => String c h :: t
           | [] => [String c ""]
           end
  end.

(** ['\n'.join(l)] *)
Fixpoint join_lines (l : list string) : string :=
  match l with
  | [] => ""
  | [a] => a
  | a :: rest => a ++ nl ++ join_lines rest
  end.

End Str.

(** ** The regular expressions of the program

    Each pattern is translated to the function Python's backtracking
    matcher computes for it. *)

Module Re.

(** [re.sub(pattern, repl, s)] for a pattern that never matches the empty
    string.  [m s] tries the pattern at the start of [s] and returns the
    replacement text together with what follows the match.  The scan
    copies one character and moves on where the pattern fails, and
    resumes after the match where it succeeds.  Every match consumes a
    character, so [length s] rounds are enough ([sub_cons] below). *)
Fixpoint sub_fuel (m : string -> option (string * string))
                  (fuel : nat) (s : string) : string :=
  match fuel with
  | O => s
  | S f =>
      match s with
      | "" => ""
      | String c r =>
          match m s with
          | Some (repl, rest) => repl ++ sub_fuel m f rest
          | None => String c (sub_fuel m f r)
          end
      end
  end.

Definition sub (m : string -> option (string * string)) (s : string) : string :=
  sub_fuel m (String.length s) s.

(** [.*?-->] : the lazy scan for the first ["-->"], which [.] does not
    let cross a newline.  Returns what follows the ["-->"]. *)
Fixpoint lazy_until_close (s : string) : option string :=
  if Str.startswith s "-->" then Some (Str.drop 3 s)
  else match s with
       | "" => None
       | String c r => if Char.is_newline c then None else lazy_until_close r
       end.

(** [<!--.*?-->], replaced by the empty string. *)
Definition html_comment (s : string) : option (string * string) :=
  if Str.startswith s "<!--"
  then option_map (pair "") (lazy_until_close (Str.drop 4 s))
  else None.

(** [`([^`]+)`], replaced by group 1.  The greedy class takes every
    character up to the next backtick; a shorter choice is followed by a
    character that is not a backtick, so it cannot succeed. *)
Definition code_span (s : string) : option (string * string) :=
  match s with
  | String c r =>
      if Char.is_backtick c then
        match Str.span (fun x => negb (Char.is_backtick x)) r with
        | (String a inner, String _ rest) => Some (String a inner, rest)
        | _ => None
        end
      else None
  | "" => None
  end.

(** [[^\w\s-]], replaced by the empty string. *)
Definition not_word_space_hyphen (s : string) : option (string * string) :=
  match s with
  | String c r =>
      if negb (Char.isword c || Char.isspace c || Char.is_hyphen c)
      then Some ("", r) else None
  | "" => None
  end.

(** [\s+] and [-+], replaced by one hyphen: a greedy run of characters of
    one class. *)
Definition run_of (p : ascii -> bool) (s : string) : option (string * string) :=
  match s with
  | String c r => if p c then Some ("-", Str.lstrip p r) else None
  | "" => None
  end.

Definition hashes_1_6 (line : string) : option (nat * string) :=
  let '(hs, rest) := Str.span Char.is_hash line in
  let k := String.length hs in
  if (1 <=? k)%nat && (k <=? 6)%nat then Some (k, rest) else None.

(** [(.+)$] : a greedy run of characters other than newline, at least
    one, which must reach the end of the string or the newline that ends
    it.  Returns group 2. *)
Definition dot_plus_eol (s : string) : option string :=
  match Str.span (fun x => negb (Char.is_newline x)) s with
  | (String a body, tail) =>
      if String.eqb tail "" || String.eqb tail Str.nl
      then Some (String a body) else None
  | _ => None
  end.

(** [\s+] followed by the continuation [k]: greedy, so the longer runs of
    whitespace are tried before the shorter ones. *)
Fixpoint spaces_then {A} (k : string -> option A) (s : string) : option A :=
  match s with
  | String c r =>
      if Char.isspace c then
        match spaces_then k r with
        | Some x => Some x
        | None => k r
        end
      else None
  | "" => None
  end.

(** [re.match(r'^(#{1,6})\s+(.+)$', line)]: the length of group 1 and
    group 2.  [#{1,6}] must take all the leading hashes, since a shorter
    choice is followed by a hash, which is not whitespace. *)
Definition heading_full (line : string) : option (nat * string) :=
  match hashes_1_6 line with
  | Some (k, rest) => option_map (pair k) (spaces_then dot_plus_eol rest)
  | None => None
  end.

(** [re.match(r'^#{1,6}\s+', line)], as a truth value. *)
Definition heading_prefix (line : string) : bool :=
  match hashes_1_6 line with
  | Some (_, String c _) => Char.isspace c
  | _ => false
  end.

End Re.

(** ** heading_to_anchor *)

Definition heading_to_anchor (text : string) : string :=
  let text := Re.sub Re.html_comment text in
  let text := Re.sub Re.code_span text in
  let anchor := Str.lower text in
  let anchor := Re.sub Re.not_word_space_hyphen anchor in
  let anchor := Re.sub (Re.run_of Char.isspace) anchor in
  let anchor := Re.sub (Re.run_of Char.is_hyphen) anchor in
  Str.strip_with Char.is_hyphen anchor.

(** ** extract_headings *)

(** A heading: [(level, text, line_index)]. *)
Definition heading : Type := Z * string * nat.

Definition h_level (h : heading) : Z := h.1.1.
Definition h_text (h : heading) : string := h.1.2.
Definition h_index (h : heading) : nat := h.2.

(** The scan state.  The program keeps [in_code_block] and [code_fence];
    both are set together and cleared together, so [None] stands for
    [in_code_block = False, code_fence = None] and [Some f] for
    [in_code_block = True, code_fence = f]. *)
Definition fence_state : Type := option string.

Definition is_fence_line (stripped : string) : bool :=
  Str.startswith stripped "```" || Str.startswith stripped "~~~".

(** The body of [if stripped.startswith('```') or ...:] before [continue]. *)
Definition fence_step (st : fence_state) (stripped : string) : fence_state :=
  let fence := Str.take 3 stripped in
  match st with
  | None => Some fence
  | Some code_fence =>
      if Str.startswith stripped code_fence then None else Some code_fence
  end.

Definition is_indented (line : string) : bool :=
  Str.startswith line "    " || Str.startswith line Str.tab.

(** The loop of [extract_headings], from line number [idx] on. *)
Fixpoint extract_from (idx : nat) (st : fence_state) (lines : list string)
  : list heading :=
  match lines with
  | [] => []
  | line :: rest =>
      let stripped := Str.strip line in
      if is_fence_line stripped then
        extract_from (S idx) (fence_step st stripped) rest
      else if bool_decide (is_Some st) then extract_from (S idx) st rest
      else if is_indented line then extract_from (S idx) st rest
      else
        match Re.heading_full line with
        | Some (k, g2) =>
            (Z.of_nat k, Str.strip g2, idx) :: extract_from (S idx) st rest
        | None => extract_from (S idx) st rest
        end
  end.

Definition extract_headings (lines : list string) : list heading :=
  extract_from 0 None lines.

(** ** generate_toc *)

(** [min(h[0] for h in toc_headings)] for the non-empty list [h :: t]. *)
Definition min_level (h : heading) (t : list heading) : Z :=
  foldl (fun acc x => if (h_level x <? acc)%Z then h_level x else acc) (h_level h) t.

(** [f'{indent}- [{text}](#{anchor})'] *)
Definition toc_line (indent text anchor : string) : string :=
  indent ++ "- [" ++ text ++ "](#" ++ anchor ++ ")".

(** The duplicate handling of one raw anchor: the final anchor and the
    updated [anchor_counts]. *)
Definition dedup_anchor (anchor_counts : gmap string Z) (anchor : string)
  : string * gmap string Z :=
  match anchor_counts !! anchor with
  | Some n =>
      let n' := (n + 1)%Z in
      (anchor ++ "-" ++ Str.of_int n', <[anchor := n']> anchor_counts)
  | None => (anchor, <[anchor := 0%Z]> anchor_counts)
  end.

(** The [for level, text, _ in toc_headings] loop: the lines appended. *)
Fixpoint toc_loop (min_lv max_level : Z) (anchor_counts : gmap string Z)
                  (hs : list heading) : list string :=
  match hs with
  | [] => []
  | (level, text, _) :: rest =>
      if (level >? max_level)%Z then toc_loop min_lv max_level anchor_counts rest
      else
        let indent := Str.repeat "  " (level - min_lv) in
        let '(anchor, counts') :=
          dedup_anchor anchor_counts (heading_to_anchor text) in
        toc_line indent text anchor :: toc_loop min_lv max_level counts' rest
  end.

(** [headings[1:] if skip_first and headings else headings] *)
Definition toc_headings (headings : list heading) (skip_first : bool)
  : list heading :=
  if skip_first then tail headings else headings.

Definition generate_toc (headings : list heading) (max_level : Z)
                        (skip_first : bool) : string :=
  match headings with
  | [] => ""
  | _ =>
      match toc_headings headings skip_first with
      | [] => ""
      | h :: t =>
          Str.join_lines (toc_loop (min_level h t) max_level ∅ (h :: t))
      end
  end.

(** ** insert_toc *)

Definition TOC_START : string := "<!-- TOC -->".
Definition TOC_END : string := "<!-- /TOC -->".

Definition is_toc_start (line : string) : bool := String.eqb (Str.strip line) TOC_START.
Definition is_toc_end (line : string) : bool := String.eqb (Str.strip line) TOC_END.

(** The marker loop, from line number [i] on, with the current value of
    [toc_start]: the final [(toc_start, toc_end)]. *)
Fixpoint find_toc (i : nat) (toc_start : option nat) (lines : list string)
  : option nat * option nat :=
  match lines with
  | [] => (toc_start, None)
  | line :: rest =>
      if is_toc_start line then find_toc (S i) (Some i) rest
      else if is_toc_end line && bool_decide (is_Some toc_start)
      then (toc_start, Some i)
      else find_toc (S i) toc_start rest
  end.

(** [lines] after the [if toc_start is not None and toc_end is not None]
    statement. *)
Definition remove_toc_block (lines : list string) : list string :=
  match find_toc 0 None lines with
  | (Some toc_start, Some toc_end) =>
      take toc_start lines ++ drop (toc_end + 1) lines
  | _ => lines
  end.

(** The first-heading loop, from line number [i] on. *)
Fixpoint find_first_heading (i : nat) (st : fence_state) (lines : list string)
  : option nat :=
  match lines with
  | [] => None
  | line :: rest =>
      let stripped := Str.strip line in
      if is_fence_line stripped then
        find_first_heading (S i) (fence_step st stripped) rest
      else if bool_decide (is_Some st) then find_first_heading (S i) st rest
      else if Re.heading_prefix line then Some i
      else find_first_heading (S i) st rest
  end.

Definition insert_toc (content toc : string) : string :=
  let lines := remove_toc_block (Str.split_lines content) in
  match find_first_heading 0 None lines with
  | None =>
      let toc_block :=
        TOC_START ++ Str.nl ++ toc ++ Str.nl ++ TOC_END ++ Str.nl ++ Str.nl in
      toc_block ++ content
  | Some first_heading_idx =>
      let toc_block := [""; TOC_START; toc; TOC_END] in
      Str.join_lines (take (first_heading_idx + 1) lines ++ toc_block
                      ++ drop (first_heading_idx + 1) lines)
  end.

(** ** The pipeline of main

    [main] reads the file, computes the table of contents and, unless it
    is empty, writes [insert_toc content toc]; [None] is the run that
    exits without writing. *)
Definition toc_of (content : string) (max_level : Z) (skip_first : bool) : string :=
  generate_toc (extract_headings (Str.split_lines content)) max_level skip_first.

Definition process (content : string) (max_level : Z) (skip_first : bool)
  : option string :=
  let toc := toc_of content max_level skip_first in
  if String.eqb toc "" then None else Some (insert_toc content toc).

(** The pipeline the specification composes: injection is applied whatever
    the rendered text is. *)
Definition refresh (content : string) : string :=
  insert_toc content (toc_of content 3 true).

(** ** Vocabulary of the statements *)

(** A matcher is consuming when every match leaves strictly less text. *)
Definition consuming (m : string -> option (string * string)) : Prop :=
  forall s repl rest, m s = Some (repl, rest) ->
    (String.length rest < String.length s)%nat.

(** The characters an anchor is made of: word characters and hyphens, none
    of which [str.lower] would change. *)
Definition anchor_char (c : ascii) : bool :=
  (Char.isword c || Char.is_hyphen c) && negb (Char.isupper c).

(** [s] starts with a character satisfying [p]. *)
Definition starts (p : ascii -> bool) (s : string) : bool :=
  match s with
  | String c _ => p c
  | "" => false
  end.

(** No two adjacent characters of [s] both satisfy [p]. *)
Fixpoint no_adjacent (p : ascii -> bool) (s : string) : bool :=
  match s with
  | "" => true
  | String c r =>
      match r with
      | String c' _ => negb (p c && p c')
      | "" => true
      end && no_adjacent p r
  end.

(** [s] neither starts nor ends with a character satisfying [p]. *)
Definition trimmed (p : ascii -> bool) (s : string) : Prop :=
  Str.lstrip p s = s /\ Str.rstrip p s = s.

(** After the deletion of step 4 of [heading_to_anchor]: word characters,
    whitespace and hyphens, all of them in lower case. *)
Definition kept_char (c : ascii) : bool :=
  (Char.isword c || Char.isspace c || Char.is_hyphen c) && negb (Char.isupper c).

(** [generate_toc] once the heading list is known not to be empty. *)
Definition render (remaining : list heading) (max_level : Z) : string :=
  match remaining with
  | [] => ""
  | h :: t => Str.join_lines (toc_loop (min_level h t) max_level ∅ (h :: t))
  end.

Definition raw_anchor (h : heading) : string := heading_to_anchor (h_text h).

(** How many of the headings [prev] have the raw anchor [a]. *)
Definition uses (a : string) (prev : list heading) : nat :=
  length (filter (fun h => raw_anchor h = a) prev).

(** The anchor of [h] when the headings [prev] were rendered before it. *)
Definition final_anchor (prev : list heading) (h : heading) : string :=
  match uses (raw_anchor h) prev with
  | O => raw_anchor h
  | S k => raw_anchor h ++ "-" ++ Str.of_int (Z.of_nat (S k))
  end.

(** The table [counts] is the one the loop holds after rendering [prev]. *)
Definition counts_of (prev : list heading) (counts : gmap string Z) : Prop :=
  forall a, counts !! a =
    match uses a prev with
    | O => None
    | S k => Some (Z.of_nat k)
    end.

(** The state of the fence tracker after the lines [lines]. *)
Definition scan_fences (st : fence_state) (lines : list string) : fence_state :=
  foldl (fun st line =>
           let stripped := Str.strip line in
           if is_fence_line stripped then fence_step st stripped else st)
        st lines.

(** ** main of markdown-toc.py

    The command line, already parsed by argparse, the result of reading
    the file and the result of the write are the inputs; what the run
    prints, the file it writes and its exit status are the outcome. *)

Module Cli.

Record args : Type := {
  file : string;
  output : option string;      (* -o / --output *)
  levels : Z;                  (* -l / --levels, default 3 *)
  to_stdout : bool;            (* --stdout *)
  include_first : bool         (* --include-first *)
}.

(** [open(args.file).read()]: the content, [FileNotFoundError], or another
    [IOError] with its message. *)
Inductive read_result : Type :=
| ReadOk (content : string)
| FileNotFound
| ReadError (e : string).

Record outcome : Type := {
  exit_code : Z;
  stdout : list string;                (* one entry per [print] *)
  stderr : list string;
  write_call : option (string * string) (* path and data of [f.write] *)
}.

(** [args.output or args.file]: an empty [-o] counts as absent. *)
Definition output_path (a : args) : string :=
  match output a with
  | Some p => if String.eqb p "" then file a else p
  | None => file a
  end.

(** [not args.output] *)
Definition no_output (a : args) : bool :=
  match output a with
  | Some p => String.eqb p ""
  | None => true
  end.

(** [main].  [write_error] is [Some e] when writing raises [IOError e]. *)
Definition main (a : args) (read : read_result) (write_error : option string)
  : outcome :=
  if negb ((1 <=? levels a)%Z && (levels a <=? 6)%Z) then
    {| exit_code := 1; stdout := [];
       stderr := ["Error: --levels must be between 1 and 6"];
       write_call := None |}
  else
    match read with
    | FileNotFound =>
        {| exit_code := 1; stdout := [];
           stderr := ["Error: File not found: " ++ file a];
           write_call := None |}
    | ReadError e =>
        {| exit_code := 1; stdout := [];
           stderr := ["Error reading file: " ++ e];
           write_call := None |}
    | ReadOk content =>
        let lines := Str.split_lines content in
        let headings := extract_headings lines in
        let toc := generate_toc headings (levels a) (negb (include_first a)) in
        if String.eqb toc "" then
          {| exit_code := 0; stdout := [];
             stderr := ["No headings found to generate TOC"];
             write_call := None |}
        else
          let result := insert_toc content toc in
          if to_stdout a then
            {| exit_code := 0; stdout := [result]; stderr := [];
               write_call := None |}
          else
            match write_error with
            | None =>
                {| exit_code := 0;
                   stdout := [if no_output a
                              then "TOC added to " ++ file a
                              else "TOC written to " ++ output_path a];
                   stderr := [];
                   write_call := Some (output_path a, result) |}
            | Some e =>
                {| exit_code := 1; stdout := [];
                   stderr := ["Error writing file: " ++ e];
                   write_call := Some (output_path a, result) |}
            end
    end.

End Cli.

(** A string without a newline character. *)
Definition one_line (s : string) : bool :=
  Str.all (fun c => negb (Char.is_newline c)) s.

(** Neither marker line. *)
Definition not_marker (line : string) : Prop :=
  is_toc_start line = false /\ is_toc_end line = false.

(** A line that neither is a fence delimiter nor matches the heading
    pattern: the heading scan passes over it. *)
Definition inert (line : string) : Prop :=
  is_fence_line (Str.strip line) = false /\ Re.heading_full line = None.

(** The shape of a line of the table of contents: spaces, then ["- ["],
    then the rest, without a newline. *)
Definition toc_entry (line : string) : Prop :=
  exists (k : nat) (rest : string),
    line = Str.repeat_nat "  " k ++ "- [" ++ rest /\ one_line rest = true.

(** * Properties *)

(** ** Characters: facts checked on the 256 code points *)

Ltac each_char c :=
  destruct c as [[] [] [] [] [] [] [] []]; vm_compute; try reflexivity;
  try discriminate; auto.

Lemma is_hyphen_eq c : Char.is_hyphen c = true -> c = "-"%char.
Proof. each_char c. Qed.

Lemma lower_not_upper c : Char.isupper (Char.lower c) = false.
Proof. each_char c. Qed.

Lemma lower_fixed c : Char.isupper c = false -> Char.lower c = c.
Proof. unfold Char.lower; intros ->; reflexivity. Qed.

Lemma lower_moves c : Char.isupper c = true -> Char.lower c <> c.
Proof. each_char c. Qed.

Lemma lower_upper_ord c :
  Char.isupper c = true -> Char.ord (Char.lower c) = (Char.ord c + 32)%N.
Proof. each_char c. Qed.

Lemma isupper_ranges c :
  Char.isupper c = true <->
  (65 <= Char.ord c <= 90 \/ 192 <= Char.ord c <= 214
   \/ 216 <= Char.ord c <= 222)%N.
Proof.
  unfold Char.isupper, Char.between.
  rewrite !orb_true_iff, !andb_true_iff, !N.leb_le. tauto.
Qed.

Lemma anchor_char_not_lt c : anchor_char c = true -> c <> "<"%char.
Proof. each_char c. Qed.

Lemma anchor_char_not_backtick c :
  anchor_char c = true -> Char.is_backtick c = false.
Proof. each_char c. Qed.

Lemma anchor_char_not_space c : anchor_char c = true -> Char.isspace c = false.
Proof. each_char c. Qed.

Lemma anchor_char_kept c :
  anchor_char c = true ->
  negb (Char.isword c || Char.isspace c || Char.is_hyphen c) = false.
Proof. each_char c. Qed.

Lemma anchor_char_not_upper c : anchor_char c = true -> Char.isupper c = false.
Proof. each_char c. Qed.

Lemma hash_not_space c : Char.is_hash c = true -> Char.isspace c = false.
Proof. each_char c. Qed.

(** ** Strings *)

Lemma all_app p s t : Str.all p (s ++ t) = Str.all p s && Str.all p t.
Proof. induction s as [|c s IH]; simpl; [reflexivity|]. rewrite IH. apply andb_assoc. Qed.

Lemma all_impl (p q : ascii -> bool) s :
  (forall c, p c = true -> q c = true) -> Str.all p s = true -> Str.all q s = true.
Proof.
  intros Hpq. induction s as [|c s IH]; simpl; [reflexivity|].
  intros [Hc Hs]%andb_true_iff. rewrite (Hpq _ Hc), (IH Hs). reflexivity.
Qed.

Lemma all_lstrip p q s : Str.all p s = true -> Str.all p (Str.lstrip q s) = true.
Proof.
  induction s as [|c s IH]; simpl; [reflexivity|].
  intros H. destruct (q c); [|exact H].
  apply andb_true_iff in H as [_ H]. exact (IH H).
Qed.

Lemma all_rstrip p q s : Str.all p s = true -> Str.all p (Str.rstrip q s) = true.
Proof.
  induction s as [|c s IH]; simpl; [reflexivity|].
  intros [Hc Hs]%andb_true_iff. specialize (IH Hs).
  destruct (Str.rstrip q s) as [|c' r'].
  - destruct (q c); simpl; [reflexivity|]. rewrite Hc. reflexivity.
  - change (Str.all p (String c (String c' r'))) with (p c && Str.all p (String c' r')).
    rewrite Hc, IH. reflexivity.
Qed.

Lemma length_lstrip p s : (String.length (Str.lstrip p s) <= String.length s)%nat.
Proof. induction s as [|c s IH]; simpl; [lia|]. destruct (p c); simpl; lia. Qed.

Lemma length_drop n s : (String.length (Str.drop n s) <= String.length s)%nat.
Proof.
  revert s. induction n as [|n IH]; intros [|c s]; simpl; try lia.
  specialize (IH s). lia.
Qed.

Lemma length_span p s a b :
  Str.span p s = (a, b) -> String.length s = (String.length a + String.length b)%nat.
Proof.
  revert a b. induction s as [|c s IH]; simpl; intros a b H.
  - inversion H; reflexivity.
  - destruct (p c).
    + destruct (Str.span p s) as [a' b'] eqn:E. inversion H; subst; simpl.
      rewrite (IH _ _ eq_refl). reflexivity.
    + inversion H; subst; reflexivity.
Qed.

Lemma map_lower_fixed s :
  Str.all (fun c => negb (Char.isupper c)) s = true -> Str.lower s = s.
Proof.
  induction s as [|c s IH]; simpl; [reflexivity|].
  intros [Hc Hs]%andb_true_iff. apply negb_true_iff in Hc.
  unfold Str.lower in *; simpl. rewrite (lower_fixed _ Hc), (IH Hs). reflexivity.
Qed.

Lemma lower_all_not_upper s :
  Str.all (fun c => negb (Char.isupper c)) (Str.lower s) = true.
Proof.
  induction s as [|c s IH]; simpl; [reflexivity|].
  rewrite lower_not_upper. exact IH.
Qed.

(** ** re.sub: the built-in fuel is enough *)

Lemma sub_fuel_enough m :
  consuming m ->
  forall n s f1 f2,
    (String.length s <= n)%nat ->
    (String.length s <= f1)%nat -> (String.length s <= f2)%nat ->
    Re.sub_fuel m f1 s = Re.sub_fuel m f2 s.
Proof.
  intros Hm. induction n as [|n IH]; intros s f1 f2 Hn H1 H2.
  - destruct s; simpl in Hn; [|lia]. destruct f1, f2; reflexivity.
  - destruct s as [|c r]; [destruct f1, f2; reflexivity|].
    simpl in *. destruct f1 as [|f1]; [lia|]. destruct f2 as [|f2]; [lia|].
    simpl. destruct (m (String c r)) as [[repl rest]|] eqn:E.
    + apply Hm in E. simpl in E. f_equal. apply IH; lia.
    + f_equal. apply IH; lia.
Qed.

(** The equation [re.sub] satisfies: replace and resume after a match, copy
    one character otherwise. *)
Lemma sub_cons m c r :
  consuming m ->
  Re.sub m (String c r) =
    match m (String c r) with
    | Some (repl, rest) => repl ++ Re.sub m rest
    | None => String c (Re.sub m r)
    end.
Proof.
  intros Hm. unfold Re.sub. simpl.
  destruct (m (String c r)) as [[repl rest]|] eqn:E; [|reflexivity].
  f_equal. pose proof (Hm _ _ _ E) as Hl. simpl in Hl.
  apply (sub_fuel_enough m Hm (String.length r)); lia.
Qed.

Lemma sub_nil m : Re.sub m "" = "".
Proof. reflexivity. Qed.

(** Where the pattern matches nowhere, [re.sub] returns its argument. *)
Lemma sub_id m (p : ascii -> bool) s :
  (forall c r, p c = true -> m (String c r) = None) ->
  Str.all p s = true -> Re.sub m s = s.
Proof.
  intros Hm. unfold Re.sub. induction s as [|c s IH]; simpl; [reflexivity|].
  intros [Hc Hs]%andb_true_iff. rewrite (Hm _ _ Hc), (IH Hs). reflexivity.
Qed.

(** A property of characters carried through [re.sub]. *)
Lemma sub_all m (P Q : ascii -> bool) :
  consuming m ->
  (forall s repl rest, Str.all P s = true -> m s = Some (repl, rest) ->
     Str.all Q repl = true /\ Str.all P rest = true) ->
  (forall c r, P c = true -> m (String c r) = None -> Q c = true) ->
  forall s, Str.all P s = true -> Str.all Q (Re.sub m s) = true.
Proof.
  intros Hm Hsome Hnone s.
  remember (String.length s) as n eqn:Hn. revert s Hn.
  induction n as [n IH] using lt_wf_ind. intros s Hn Hs.
  destruct s as [|c r]; [reflexivity|].
  rewrite sub_cons by exact Hm.
  destruct (m (String c r)) as [[repl rest]|] eqn:E.
  - destruct (Hsome _ _ _ Hs E) as [Hq Hp]. rewrite all_app, Hq. simpl.
    apply (IH (String.length rest)); [|reflexivity|exact Hp].
    subst n. exact (Hm _ _ _ E).
  - simpl in Hs. apply andb_true_iff in Hs as [Hc Hr]. simpl.
    rewrite (Hnone _ _ Hc E). simpl.
    apply (IH (String.length r)); [subst n; simpl; lia|reflexivity|exact Hr].
Qed.

Lemma length_lazy_until_close s rest :
  Re.lazy_until_close s = Some rest -> (String.length rest <= String.length s)%nat.
Proof.
  revert rest. induction s as [|c s IH]; intros rest;
    cbn [Re.lazy_until_close].
  - discriminate.
  - destruct (Str.startswith (String c s) "-->") eqn:E.
    + intros [= Hr]. subst rest. apply (length_drop 3 (String c s)).
    + destruct (Char.is_newline c); [discriminate|]. intros H%IH.
      cbn [String.length]. lia.
Qed.

Lemma startswith_length s p :
  Str.startswith s p = true -> (String.length p <= String.length s)%nat.
Proof.
  unfold Str.startswith. revert s.
  induction p as [|a p IH]; intros [|b s]; simpl; try lia; try discriminate.
  destruct (ascii_dec a b); [|discriminate]. intros H%IH. lia.
Qed.

Lemma length_drop_exact n s :
  (n <= String.length s)%nat ->
  String.length (Str.drop n s) = (String.length s - n)%nat.
Proof.
  revert s. induction n as [|n IH]; intros [|c s]; simpl; try lia.
  intros H. apply IH. lia.
Qed.

Lemma html_comment_consuming : consuming Re.html_comment.
Proof.
  intros s repl rest. unfold Re.html_comment.
  destruct (Str.startswith s "<!--") eqn:E; [|discriminate].
  apply startswith_length in E. simpl in E.
  destruct (Re.lazy_until_close (Str.drop 4 s)) as [x|] eqn:L; [|discriminate].
  intros [= _ <-]. apply length_lazy_until_close in L.
  rewrite length_drop_exact in L by exact E. lia.
Qed.

Lemma code_span_consuming : consuming Re.code_span.
Proof.
  intros [|c r] repl rest; simpl; [discriminate|].
  destruct (Char.is_backtick c); [|discriminate].
  destruct (Str.span _ r) as [[|a inner] [|b tl]] eqn:E; try discriminate.
  intros [= _ <-]. apply length_span in E. simpl in E. lia.
Qed.

Lemma not_word_space_hyphen_consuming : consuming Re.not_word_space_hyphen.
Proof.
  intros [|c r] repl rest; simpl; [discriminate|].
  destruct (negb _); [|discriminate]. intros [= _ <-]. lia.
Qed.

Lemma run_of_consuming p : consuming (Re.run_of p).
Proof.
  intros [|c r] repl rest; simpl; [discriminate|].
  destruct (p c); [|discriminate]. intros [= _ <-].
  pose proof (length_lstrip p r). lia.
Qed.

(** ** strip *)

Lemma starts_lstrip p s : starts p (Str.lstrip p s) = false.
Proof.
  induction s as [|c s IH]; simpl; [reflexivity|].
  destruct (p c) eqn:E; [exact IH|]. simpl. exact E.
Qed.

Lemma lstrip_id p s : starts p s = false -> Str.lstrip p s = s.
Proof. destruct s as [|c s]; simpl; [reflexivity|]. intros ->. reflexivity. Qed.

Lemma rstrip_head p s c' r' :
  Str.rstrip p s = String c' r' -> exists r0, s = String c' r0.
Proof.
  destruct s as [|c r]; simpl; [discriminate|].
  destruct (Str.rstrip p r).
  - destruct (p c); [discriminate|]. intros [= <- _]. eauto.
  - intros [= <- _]. eauto.
Qed.

Lemma starts_rstrip p s : starts p s = false -> starts p (Str.rstrip p s) = false.
Proof.
  intros H. destruct (Str.rstrip p s) as [|c' r'] eqn:E; [reflexivity|].
  apply rstrip_head in E as [r0 ->]. exact H.
Qed.

Lemma rstrip_idem p s : Str.rstrip p (Str.rstrip p s) = Str.rstrip p s.
Proof.
  induction s as [|c s IH]; simpl; [reflexivity|].
  destruct (Str.rstrip p s) as [|c' r'] eqn:E.
  - destruct (p c) eqn:Ec; simpl; [reflexivity|]. rewrite Ec. reflexivity.
  - cbn [Str.rstrip]. cbn [Str.rstrip] in IH. rewrite IH. reflexivity.
Qed.

Lemma strip_with_trimmed p s : trimmed p (Str.strip_with p s).
Proof.
  unfold trimmed, Str.strip_with. split.
  - apply lstrip_id, starts_rstrip, starts_lstrip.
  - apply rstrip_idem.
Qed.

Lemma strip_with_id p s : trimmed p s -> Str.strip_with p s = s.
Proof. intros [Hl Hr]. unfold Str.strip_with. rewrite Hl. exact Hr. Qed.

(** ** Runs of hyphens *)

Lemma no_adjacent_cons p c r :
  no_adjacent p (String c r) = negb (p c && starts p r) && no_adjacent p r.
Proof.
  destruct r as [|c' r']; simpl; [|reflexivity].
  rewrite andb_false_r. reflexivity.
Qed.

Lemma no_adjacent_lstrip p q s :
  no_adjacent p s = true -> no_adjacent p (Str.lstrip q s) = true.
Proof.
  induction s as [|c s IH]; [reflexivity|].
  intros H. cbn [Str.lstrip]. destruct (q c); [|exact H].
  rewrite no_adjacent_cons in H. apply andb_true_iff in H as [_ H]. exact (IH H).
Qed.

Lemma no_adjacent_rstrip p q s :
  no_adjacent p s = true -> no_adjacent p (Str.rstrip q s) = true.
Proof.
  induction s as [|c s IH]; [reflexivity|].
  rewrite no_adjacent_cons. intros [Hc Hs]%andb_true_iff.
  specialize (IH Hs). cbn [Str.rstrip].
  destruct (Str.rstrip q s) as [|c' r'] eqn:E.
  - destruct (q c); reflexivity.
  - rewrite no_adjacent_cons, IH, andb_true_r.
    apply rstrip_head in E as [r0 ->]. exact Hc.
Qed.

Lemma starts_sub_run p s :
  starts p s = false -> starts p (Re.sub (Re.run_of p) s) = false.
Proof.
  destruct s as [|c r]; [reflexivity|]. intros H.
  rewrite sub_cons by apply run_of_consuming. simpl in *. rewrite H. exact H.
Qed.

Lemma sub_hyphens_no_adjacent s :
  no_adjacent Char.is_hyphen (Re.sub (Re.run_of Char.is_hyphen) s) = true.
Proof.
  remember (String.length s) as n eqn:Hn. revert s Hn.
  induction n as [n IH] using lt_wf_ind. intros s Hn.
  destruct s as [|c r]; [reflexivity|].
  rewrite sub_cons by apply run_of_consuming. cbn [Re.run_of].
  pose proof (length_lstrip Char.is_hyphen r) as Hl. simpl in Hn.
  destruct (Char.is_hyphen c) eqn:Ec.
  - change ("-" ++ ?x) with (String "-"%char x).
    rewrite no_adjacent_cons, starts_sub_run by apply starts_lstrip.
    rewrite andb_false_r. simpl.
    apply (IH (String.length (Str.lstrip Char.is_hyphen r))); [lia|reflexivity].
  - rewrite no_adjacent_cons, Ec. simpl.
    apply (IH (String.length r)); [lia|reflexivity].
Qed.

Lemma sub_hyphens_id s :
  no_adjacent Char.is_hyphen s = true -> Re.sub (Re.run_of Char.is_hyphen) s = s.
Proof.
  induction s as [|c r IH]; [reflexivity|].
  rewrite no_adjacent_cons. intros [Hc Hr]%andb_true_iff.
  rewrite sub_cons by apply run_of_consuming. cbn [Re.run_of].
  destruct (Char.is_hyphen c) eqn:Ec.
  - simpl in Hc. apply negb_true_iff in Hc.
    rewrite (lstrip_id _ _ Hc), (IH Hr), (is_hyphen_eq _ Ec). reflexivity.
  - rewrite (IH Hr). reflexivity.
Qed.

(** ** heading_to_anchor: the shape of an anchor *)

Lemma startswith_cons c r a p :
  Str.startswith (String c r) (String a p) = Ascii.eqb a c && Str.startswith r p.
Proof.
  unfold Str.startswith.
  change (String.prefix (String a p) (String c r))
    with (if ascii_dec a c then String.prefix p r else false).
  destruct (ascii_dec a c) as [->|Hne].
  - rewrite Ascii.eqb_refl. reflexivity.
  - apply Ascii.eqb_neq in Hne. rewrite Hne. reflexivity.
Qed.


Lemma startswith_of_nil a p : Str.startswith "" (String a p) = false.
Proof. reflexivity. Qed.

Lemma html_comment_none c r :
  anchor_char c = true -> Re.html_comment (String c r) = None.
Proof.
  intros H%anchor_char_not_lt. unfold Re.html_comment.
  change "<!--" with (String "<"%char "!--"). rewrite startswith_cons.
  destruct (Ascii.eqb_spec "<"%char c) as [E|_]; [|reflexivity].
  symmetry in E. contradiction.
Qed.

Lemma code_span_none c r :
  anchor_char c = true -> Re.code_span (String c r) = None.
Proof. intros H%anchor_char_not_backtick. simpl. rewrite H. reflexivity. Qed.

Lemma not_word_space_hyphen_none c r :
  anchor_char c = true -> Re.not_word_space_hyphen (String c r) = None.
Proof. intros H%anchor_char_kept. simpl. rewrite H. reflexivity. Qed.

Lemma run_of_space_none c r :
  anchor_char c = true -> Re.run_of Char.isspace (String c r) = None.
Proof. intros H%anchor_char_not_space. simpl. rewrite H. reflexivity. Qed.

Lemma kept_not_space_anchor c :
  kept_char c = true -> Char.isspace c = false -> anchor_char c = true.
Proof.
  unfold kept_char, anchor_char. intros H Hs. rewrite Hs, orb_false_r in H. exact H.
Qed.

Lemma step4_kept s :
  Str.all (fun c => negb (Char.isupper c)) s = true ->
  Str.all kept_char (Re.sub Re.not_word_space_hyphen s) = true.
Proof.
  apply sub_all; [apply not_word_space_hyphen_consuming| |].
  - intros [|c r] repl rest Hs; simpl; [discriminate|].
    destruct (negb _); [|discriminate]. intros [= <- <-]. split; [reflexivity|].
    simpl in Hs. apply andb_true_iff in Hs as [_ Hs]. exact Hs.
  - intros c r Hc. simpl. unfold kept_char.
    destruct (Char.isword c || Char.isspace c || Char.is_hyphen c);
      [intros _; exact Hc|discriminate].
Qed.

Lemma step5_anchor s :
  Str.all kept_char s = true ->
  Str.all anchor_char (Re.sub (Re.run_of Char.isspace) s) = true.
Proof.
  apply sub_all; [apply run_of_consuming| |].
  - intros [|c r] repl rest Hs; simpl; [discriminate|].
    destruct (Char.isspace c); [|discriminate]. intros [= <- <-].
    split; [reflexivity|]. apply all_lstrip.
    simpl in Hs. apply andb_true_iff in Hs as [_ Hs]. exact Hs.
  - intros c r Hc. simpl. destruct (Char.isspace c) eqn:E; [discriminate|].
    intros _. exact (kept_not_space_anchor _ Hc E).
Qed.

Lemma step6_anchor s :
  Str.all anchor_char s = true ->
  Str.all anchor_char (Re.sub (Re.run_of Char.is_hyphen) s) = true.
Proof.
  apply sub_all; [apply run_of_consuming| |].
  - intros [|c r] repl rest Hs; simpl; [discriminate|].
    destruct (Char.is_hyphen c); [|discriminate]. intros [= <- <-].
    split; [reflexivity|]. apply all_lstrip.
    simpl in Hs. apply andb_true_iff in Hs as [_ Hs]. exact Hs.
  - intros c r Hc _. exact Hc.
Qed.

(** An anchor is made of lower-case word characters and single hyphens,
    and neither starts nor ends with a hyphen. *)
Lemma anchor_shape text :
  Str.all anchor_char (heading_to_anchor text) = true
  /\ no_adjacent Char.is_hyphen (heading_to_anchor text) = true
  /\ trimmed Char.is_hyphen (heading_to_anchor text).
Proof.
  unfold heading_to_anchor. split; [|split].
  - unfold Str.strip_with. apply all_rstrip, all_lstrip, step6_anchor,
      step5_anchor, step4_kept, lower_all_not_upper.
  - unfold Str.strip_with.
    apply no_adjacent_rstrip, no_adjacent_lstrip, sub_hyphens_no_adjacent.
  - apply strip_with_trimmed.
Qed.

(** On a string of that shape every step of the function is the identity. *)
Lemma anchor_fixed a :
  Str.all anchor_char a = true ->
  no_adjacent Char.is_hyphen a = true ->
  trimmed Char.is_hyphen a ->
  heading_to_anchor a = a.
Proof.
  intros Hall Hadj Htrim. unfold heading_to_anchor.
  rewrite (sub_id Re.html_comment anchor_char a html_comment_none Hall).
  rewrite (sub_id Re.code_span anchor_char a code_span_none Hall).
  rewrite map_lower_fixed
    by (apply (all_impl anchor_char); [|exact Hall];
        intros c Hc; rewrite (anchor_char_not_upper _ Hc); reflexivity).
  rewrite (sub_id Re.not_word_space_hyphen anchor_char a
             not_word_space_hyphen_none Hall).
  rewrite (sub_id (Re.run_of Char.isspace) anchor_char a run_of_space_none Hall).
  rewrite (sub_hyphens_id a Hadj).
  apply strip_with_id, Htrim.
Qed.

(** C10.  heading_to_anchor is idempotent: its output contains only word
    characters and isolated interior hyphens, and on such a string every
    step of the function is the identity, so
    heading_to_anchor (heading_to_anchor s) = heading_to_anchor s for
    every string s. *)
Theorem heading_to_anchor_idempotent (s : string) :
  heading_to_anchor (heading_to_anchor s) = heading_to_anchor s.
Proof.
  destruct (anchor_shape s) as (Hall & Hadj & Htrim).
  exact (anchor_fixed _ Hall Hadj Htrim).
Qed.

(** C6 (as the program has it).  The lowercasing step of heading_to_anchor
    is str.lower, character by character: it moves A..Z and also the
    non-ASCII capitals U+00C0..U+00DE (except U+00D7) to the code point 32
    above and leaves every other character unchanged; so no character of
    an anchor is one that lowercasing would still change: every letter
    retained in the output is in its lower-case form. *)
Theorem heading_to_anchor_lower_case (text : string) :
  Str.all (fun c => Ascii.eqb (Char.lower c) c) (heading_to_anchor text) = true
  /\ (forall c, Char.lower c <> c <->
        (65 <= Char.ord c <= 90 \/ 192 <= Char.ord c <= 214
         \/ 216 <= Char.ord c <= 222)%N)
  /\ (forall c, Char.lower c <> c ->
        Char.ord (Char.lower c) = (Char.ord c + 32)%N).
Proof.
  split; [|split].
  - destruct (anchor_shape text) as (Hall & _).
    apply (all_impl anchor_char); [|exact Hall].
    intros c Hc. rewrite (lower_fixed _ (anchor_char_not_upper _ Hc)).
    apply Ascii.eqb_refl.
  - intros c. rewrite <- isupper_ranges. split.
    + intros H. destruct (Char.isupper c) eqn:E; [reflexivity|].
      elim H. exact (lower_fixed _ E).
    + apply lower_moves.
  - intros c H. destruct (Char.isupper c) eqn:E.
    + exact (lower_upper_ord _ E).
    + elim H. exact (lower_fixed _ E).
Qed.

(** C6, counterexample.  U+00C9 is a non-ASCII letter; the lowercasing
    step turns it into U+00E9, and that is how it appears in the anchor. *)
Lemma lower_changes_non_ascii_letter :
  let E_acute := Char.chr 201 in
  (128 <= Char.ord E_acute)%N
  /\ Char.isalnum E_acute = true
  /\ Str.lower (String E_acute "") = String (Char.chr 233) ""
  /\ heading_to_anchor (String E_acute "") = String (Char.chr 233) ""
  /\ heading_to_anchor (String E_acute "") <> String E_acute "".
Proof. vm_compute. repeat split; try discriminate. Qed.

(** ** generate_toc *)

Lemma generate_toc_render hs ml sf :
  generate_toc hs ml sf = render (toc_headings hs sf) ml.
Proof. destruct hs as [|h t]; [destruct sf|]; reflexivity. Qed.

Lemma str_length_app s t :
  String.length (s ++ t) = (String.length s + String.length t)%nat.
Proof. induction s as [|c s IH]; simpl; [reflexivity|]. rewrite IH. reflexivity. Qed.

Lemma toc_line_not_empty indent text anchor : toc_line indent text anchor <> "".
Proof.
  intros H. apply (f_equal String.length) in H. unfold toc_line in H.
  rewrite !str_length_app in H. simpl in H. lia.
Qed.

Lemma join_lines_empty a l : Str.join_lines (a :: l) = "" -> a = "".
Proof.
  destruct l as [|b l]; simpl; [auto|].
  intros H. apply (f_equal String.length) in H.
  rewrite str_length_app in H. simpl in H. destruct a; [reflexivity|simpl in H; lia].
Qed.

Lemma toc_loop_nil mn mx counts hs :
  toc_loop mn mx counts hs = [] <-> Forall (fun h => (mx < h_level h)%Z) hs.
Proof.
  revert counts. induction hs as [|[[level text] idx] hs IH]; intros counts; simpl.
  - split; [constructor|reflexivity].
  - destruct (Z.gtb_spec level mx) as [Hgt|Hle].
    + rewrite IH. split; [intros H; constructor; [exact Hgt|exact H]|].
      intros H. inversion H; assumption.
    + destruct (dedup_anchor counts (heading_to_anchor text)) as [anchor counts'].
      split; [discriminate|]. intros H. inversion H as [|? ? Hh _]; subst.
      unfold h_level in Hh; simpl in Hh. lia.
Qed.

Lemma toc_loop_head_not_empty mn mx counts hs a l :
  toc_loop mn mx counts hs = a :: l -> a <> "".
Proof.
  revert counts. induction hs as [|[[level text] idx] hs IH]; intros counts; simpl.
  - discriminate.
  - destruct (level >? mx)%Z; [apply IH|].
    destruct (dedup_anchor counts (heading_to_anchor text)) as [anchor counts'].
    intros [= <- _]. apply toc_line_not_empty.
Qed.

Lemma render_empty_iff remaining ml :
  render remaining ml = "" <-> Forall (fun h => (ml < h_level h)%Z) remaining.
Proof.
  destruct remaining as [|h t]; [split; [constructor|reflexivity]|].
  unfold render. rewrite <- (toc_loop_nil (min_level h t) ml ∅ (h :: t)).
  destruct (toc_loop (min_level h t) ml ∅ (h :: t)) as [|a l] eqn:E.
  - split; reflexivity.
  - split; [|discriminate]. intros H%join_lines_empty.
    apply toc_loop_head_not_empty in E. contradiction.
Qed.

(** C2 (as the program has it).  generate_toc returns the empty string
    exactly when no heading is rendered: when the list remaining after the
    skip_first drop is empty, and equally when headings remain but every
    one of them exceeds max_level.  The result for an empty remaining list
    is the same value as the empty rendered text. *)
Theorem generate_toc_empty_iff (hs : list heading) (ml : Z) (sf : bool) :
  (toc_headings hs sf = [] -> generate_toc hs ml sf = "")
  /\ (generate_toc hs ml sf = "" <->
      Forall (fun h => (ml < h_level h)%Z) (toc_headings hs sf)).
Proof.
  rewrite generate_toc_render. split.
  - intros ->. reflexivity.
  - apply render_empty_iff.
Qed.

(** C2, counterexample.  A list whose remaining part is empty and a list
    whose remaining part holds a level-4 heading give the same result with
    max_level = 3: the two cases cannot be told apart. *)
Lemma no_toc_not_distinct :
  let title : heading := (1%Z, "T", 0%nat) in
  let deep : heading := (4%Z, "D", 1%nat) in
  toc_headings [title] true = []
  /\ toc_headings [title; deep] true <> []
  /\ generate_toc [title] 3 true = generate_toc [title; deep] 3 true.
Proof. repeat split. discriminate. Qed.

Lemma generate_toc_empty_iff_witness :
  toc_headings [(1%Z, "T", 0%nat)] true = []
  /\ generate_toc [(1%Z, "T", 0%nat)] 3 true = "".
Proof.
  split; [reflexivity|].
  apply (proj1 (generate_toc_empty_iff [(1%Z, "T", 0%nat)] 3 true)). reflexivity.
Defined.

(** *** The indentation baseline *)









(** *** Duplicate anchors *)

Lemma uses_snoc a prev h :
  uses a (prev ++ [h]) = (uses a prev + (if decide (raw_anchor h = a) then 1 else 0))%nat.
Proof.
  unfold uses. rewrite filter_app, length_app. f_equal.
  destruct (decide (raw_anchor h = a)) as [E|E].
  - rewrite filter_cons_True by exact E. reflexivity.
  - rewrite filter_cons_False by exact E. reflexivity.
Qed.

Lemma counts_of_nil : counts_of [] ∅.
Proof. intros a. reflexivity. Qed.

(** One round of the duplicate handling: the anchor emitted for [h] and
    the table after it. *)
Lemma dedup_anchor_counts prev counts h :
  counts_of prev counts ->
  (dedup_anchor counts (raw_anchor h)).1 = final_anchor prev h
  /\ counts_of (prev ++ [h]) (dedup_anchor counts (raw_anchor h)).2.
Proof.
  intros Hc. unfold dedup_anchor, final_anchor.
  pose proof (Hc (raw_anchor h)) as Hh. rewrite Hh.
  destruct (uses (raw_anchor h) prev) as [|k] eqn:Eu; simpl.
  - split; [reflexivity|]. intros a. rewrite uses_snoc.
    destruct (decide (raw_anchor h = a)) as [<-|Hne].
    + rewrite lookup_insert_eq, Eu. reflexivity.
    + rewrite lookup_insert_ne by exact Hne. rewrite Hc, Nat.add_0_r. reflexivity.
  - split; [do 3 f_equal; lia|]. intros a. rewrite uses_snoc.
    destruct (decide (raw_anchor h = a)) as [<-|Hne].
    + rewrite lookup_insert_eq, Eu. simpl. f_equal. lia.
    + rewrite lookup_insert_ne by exact Hne. rewrite Hc, Nat.add_0_r. reflexivity.
Qed.

(** The lines of the loop: one per heading within [max_level], in order,
    whose anchor counts the earlier rendered headings with the same raw
    anchor. *)
Lemma toc_loop_lines mn mx prev counts hs :
  counts_of prev counts ->
  toc_loop mn mx counts hs =
    imap (fun i h =>
            toc_line (Str.repeat "  " (h_level h - mn)) (h_text h)
              (final_anchor
                 (prev ++ take i (filter (fun x => (h_level x <= mx)%Z) hs)) h))
         (filter (fun x => (h_level x <= mx)%Z) hs).
Proof.
  revert prev counts. induction hs as [|[[level text] idx] hs IH];
    intros prev counts Hc; [reflexivity|].
  simpl toc_loop. destruct (level >? mx)%Z eqn:E.
  - rewrite filter_cons_False by (unfold h_level; simpl; lia).
    apply IH, Hc.
  - rewrite filter_cons_True by (unfold h_level; simpl; lia).
    destruct (dedup_anchor_counts prev counts (level, text, idx) Hc) as [Ha Hc'].
    unfold raw_anchor, h_text in Ha, Hc'; simpl in Ha, Hc'.
    destruct (dedup_anchor counts (heading_to_anchor text)) as [anchor counts'].
    simpl in Ha, Hc'.
    rewrite (IH _ _ Hc'). simpl imap. rewrite app_nil_r, Ha. f_equal.
    apply imap_ext. intros i h _. simpl. rewrite <- app_assoc. reflexivity.
Qed.

Lemma three_intro_lines (l mx : Z) (i1 i2 i3 : nat) :
  (l <= mx)%Z ->
  render [(l, "Intro", i1); (l, "Intro", i2); (l, "Intro", i3)] mx
  = Str.join_lines
      ["- [Intro](#intro)"; "- [Intro](#intro-1)"; "- [Intro](#intro-2)"].
Proof.
  intros Hl. unfold render.
  assert (min_level (l, "Intro", i1) [(l, "Intro", i2); (l, "Intro", i3)] = l)
    as -> by (unfold min_level, h_level; simpl; rewrite !Z.ltb_irrefl; reflexivity).
  rewrite (toc_loop_lines l mx [] ∅ _ counts_of_nil).
  rewrite !filter_cons_True by (unfold h_level; simpl; lia).
  rewrite filter_nil. simpl imap. unfold h_level, h_text. simpl fst. simpl snd.
  rewrite Z.sub_diag. vm_compute. reflexivity.
Qed.

(** C7 (as the program has it).  The heading dropped by skip_first takes
    no part in the counting: for a title followed by three headings Intro
    with skipFirst = true, and for three headings Intro with skipFirst =
    false, the anchors are intro, intro-1, intro-2 in that order.  In
    general a raw anchor that is already a key of the table has its count
    incremented and the final anchor is rawAnchor-count, otherwise it is
    inserted with count 0 and used unchanged; hence the anchor of a
    rendered heading is its raw anchor when no earlier rendered heading has
    the same one, and rawAnchor-n when n earlier ones do. *)
Theorem duplicate_anchors :
  (forall (title : heading) (l mx : Z) (i1 i2 i3 : nat),
     (l <= mx)%Z ->
     generate_toc [title; (l, "Intro", i1); (l, "Intro", i2); (l, "Intro", i3)]
                  mx true
     = Str.join_lines
         ["- [Intro](#intro)"; "- [Intro](#intro-1)"; "- [Intro](#intro-2)"]
     /\ generate_toc [(l, "Intro", i1); (l, "Intro", i2); (l, "Intro", i3)]
                     mx false
        = Str.join_lines
            ["- [Intro](#intro)"; "- [Intro](#intro-1)"; "- [Intro](#intro-2)"])
  /\ (forall (counts : gmap string Z) (a : string),
        match counts !! a with
        | Some n =>
            dedup_anchor counts a
            = (a ++ "-" ++ Str.of_int (n + 1), <[a := (n + 1)%Z]> counts)
        | None => dedup_anchor counts a = (a, <[a := 0%Z]> counts)
        end)
  /\ (forall (mn mx : Z) (hs : list heading),
        let shown := filter (fun h => (h_level h <= mx)%Z) hs in
        toc_loop mn mx ∅ hs =
          imap (fun i h =>
                  toc_line (Str.repeat "  " (h_level h - mn)) (h_text h)
                    (final_anchor (take i shown) h))
               shown).
Proof.
  split; [|split].
  - intros title l mx i1 i2 i3 Hl. rewrite !generate_toc_render.
    split; apply three_intro_lines, Hl.
  - intros counts a. unfold dedup_anchor. destruct (counts !! a); reflexivity.
  - intros mn mx hs. exact (toc_loop_lines mn mx [] ∅ hs counts_of_nil).
Qed.

Lemma duplicate_anchors_witness :
  generate_toc [(1%Z, "Guide", 0%nat); (2%Z, "Intro", 1%nat);
                (2%Z, "Intro", 5%nat); (2%Z, "Intro", 9%nat)] 3 true
  = Str.join_lines
      ["- [Intro](#intro)"; "- [Intro](#intro-1)"; "- [Intro](#intro-2)"].
Proof.
  apply (proj1 duplicate_anchors (1%Z, "Guide", 0%nat) 2%Z 3%Z 1%nat 5%nat 9%nat).
  lia.
Defined.

(** C7, counterexample.  With skipFirst = true a list of exactly three
    headings Intro loses its first element before the counting starts:
    two lines are emitted, with the anchors intro and intro-1, and no
    anchor intro-2. *)
Lemma three_intro_skip_first :
  let hs : list heading :=
    [(1%Z, "Intro", 0%nat); (1%Z, "Intro", 1%nat); (1%Z, "Intro", 2%nat)] in
  generate_toc hs 3 true
  = Str.join_lines ["- [Intro](#intro)"; "- [Intro](#intro-1)"]
  /\ generate_toc hs 3 true
     <> Str.join_lines
          ["- [Intro](#intro)"; "- [Intro](#intro-1)"; "- [Intro](#intro-2)"].
Proof. vm_compute. split; [reflexivity|discriminate]. Qed.

(** ** extract_headings and the fence tracker *)

Lemma scan_fences_cons st line rest :
  scan_fences st (line :: rest) =
    scan_fences (if is_fence_line (Str.strip line)
                 then fence_step st (Str.strip line) else st) rest.
Proof. reflexivity. Qed.

Lemma scan_fences_app st l1 l2 :
  scan_fences st (l1 ++ l2) = scan_fences (scan_fences st l1) l2.
Proof. apply foldl_app. Qed.

(** Inside a fence, lines that do not start with the marker change
    nothing. *)
Lemma scan_fences_unclosed m ls :
  Forall (fun l => Str.startswith (Str.strip l) m = false) ls ->
  scan_fences (Some m) ls = Some m.
Proof.
  induction ls as [|l ls IH]; [reflexivity|].
  intros H. inversion H as [|? ? Hl Hls]; subst.
  rewrite scan_fences_cons. simpl. rewrite Hl.
  destruct (is_fence_line (Str.strip l)); exact (IH Hls).
Qed.

(** What a recorded heading says about its line: the line is not a fence
    delimiter, the tracker is outside any fence when it reaches it, and
    the line matches the heading pattern. *)
Lemma extract_from_sound idx st lines h :
  h ∈ extract_from idx st lines ->
  exists k line n g2,
    h_index h = (idx + k)%nat
    /\ lines !! k = Some line
    /\ is_fence_line (Str.strip line) = false
    /\ scan_fences st (take k lines) = None
    /\ Re.heading_full line = Some (n, g2)
    /\ h_level h = Z.of_nat n /\ h_text h = Str.strip g2.
Proof.
  revert idx st. induction lines as [|line rest IH]; intros idx st; simpl.
  - intros H. inversion H.
  - assert (forall st',
      st' = (if is_fence_line (Str.strip line)
             then fence_step st (Str.strip line) else st) ->
      h ∈ extract_from (S idx) st' rest ->
      exists k line0 n g2,
        h_index h = (idx + k)%nat
        /\ (line :: rest) !! k = Some line0
        /\ is_fence_line (Str.strip line0) = false
        /\ scan_fences st (take k (line :: rest)) = None
        /\ Re.heading_full line0 = Some (n, g2)
        /\ h_level h = Z.of_nat n /\ h_text h = Str.strip g2) as Hrest.
    { intros st' -> Hin.
      destruct (IH _ _ Hin) as (k & l0 & n & g2 & Hi & Hl & Hf & Hs & Hm & Hlv & Ht).
      exists (S k), l0, n, g2.
      split; [lia|]. split; [exact Hl|]. split; [exact Hf|].
      split; [|auto]. simpl take. rewrite scan_fences_cons. exact Hs. }
    destruct (is_fence_line (Str.strip line)) eqn:Ef;
      [intros Hin; exact (Hrest _ eq_refl Hin)|].
    destruct st as [m|]; simpl; [intros Hin; exact (Hrest _ eq_refl Hin)|].
    destruct (is_indented line); [intros Hin; exact (Hrest _ eq_refl Hin)|].
    destruct (Re.heading_full line) as [[n g2]|] eqn:Em;
      [|intros Hin; exact (Hrest _ eq_refl Hin)].
    intros [->|Hin]%elem_of_cons; [|exact (Hrest _ eq_refl Hin)].
    exists 0%nat, line, n, g2. unfold h_index, h_level, h_text. simpl.
    repeat split; try assumption; try reflexivity. lia.
Qed.

(** C9.  A line inside a fenced code block never contributes a heading,
    and a fence delimiter line is never recorded as one.  First part: when
    the tracker is in the Normal state after the lines [pre], the line
    [opener] (trimmed) starts with ``` or ~~~, and no line of [body]
    (trimmed) starts with the 3-character marker of [opener], then no
    heading of the output has the index of [opener] or of a line of
    [body].  Second part: the line of every recorded heading is not a
    fence delimiter and is reached in the Normal state. *)
Theorem fence_isolation :
  (forall (pre body post : list string) (opener : string) (h : heading),
     scan_fences None pre = None ->
     is_fence_line (Str.strip opener) = true ->
     Forall (fun l =>
               Str.startswith (Str.strip l) (Str.take 3 (Str.strip opener)) = false)
            body ->
     h ∈ extract_headings (pre ++ opener :: body ++ post) ->
     (h_index h < length pre \/ length pre + length body < h_index h)%nat)
  /\ (forall (lines : list string) (h : heading),
        h ∈ extract_headings lines ->
        exists line,
          lines !! h_index h = Some line
          /\ is_fence_line (Str.strip line) = false
          /\ scan_fences None (take (h_index h) lines) = None).
Proof.
  assert (forall (lines : list string) (h : heading),
        h ∈ extract_headings lines ->
        exists line,
          lines !! h_index h = Some line
          /\ is_fence_line (Str.strip line) = false
          /\ scan_fences None (take (h_index h) lines) = None) as Hsecond.
  { intros lines h Hin.
    destruct (extract_from_sound _ _ _ _ Hin)
      as (k & line & n & g2 & Hi & Hl & Hf & Hs & _).
    simpl in Hi. subst k. eauto. }
  split; [|exact Hsecond].
  intros pre body post opener h Hpre Hopen Hbody Hin.
  destruct (Hsecond _ _ Hin) as (line & Hl & Hf & Hs).
  destruct (decide (h_index h < length pre)%nat) as [|Hge]; [left; assumption|].
  destruct (decide (length pre + length body < h_index h)%nat) as [|Hle];
    [right; assumption|].
  exfalso. destruct (decide (h_index h = length pre)) as [E|Hne].
  - rewrite E, list_lookup_middle in Hl by reflexivity.
    injection Hl as <-. congruence.
  - set (j := (h_index h - length pre - 1)%nat).
    replace (h_index h) with (length pre + S j)%nat in Hs by (unfold j; lia).
    rewrite take_app_add, scan_fences_app, Hpre in Hs.
    simpl take in Hs. rewrite scan_fences_cons, Hopen in Hs. simpl in Hs.
    rewrite take_app_le, scan_fences_unclosed in Hs;
      [discriminate|apply Forall_take; exact Hbody|unfold j; lia].
Qed.

Lemma fence_isolation_witness :
  let lines := ["# Title"; "```"; "# not a heading"; "```"; "## Real"] in
  let h : heading := (2%Z, "Real", 4%nat) in
  extract_headings lines = [(1%Z, "Title", 0%nat); h]
  /\ (h_index h < 1 \/ 1 + 1 < h_index h)%nat.
Proof.
  split; [reflexivity|].
  apply (proj1 fence_isolation ["# Title"] ["# not a heading"]
           ["```"; "## Real"] "```" (2%Z, "Real", 4%nat)).
  - reflexivity.
  - reflexivity.
  - repeat constructor.
  - vm_compute. repeat constructor.
Defined.

(** ** The first-heading search of insert_toc *)

Lemma spaces_then_starts {A} (k : string -> option A) s x :
  Re.spaces_then k s = Some x -> starts Char.isspace s = true.
Proof.
  destruct s as [|c r]; simpl; [discriminate|].
  destruct (Char.isspace c); [reflexivity|discriminate].
Qed.

(** A line the heading pattern accepts is one the search accepts. *)
Lemma heading_full_prefix line n g2 :
  Re.heading_full line = Some (n, g2) -> Re.heading_prefix line = true.
Proof.
  unfold Re.heading_full, Re.heading_prefix.
  destruct (Re.hashes_1_6 line) as [[k rest]|]; [|discriminate].
  destruct (Re.spaces_then Re.dot_plus_eol rest) as [x|] eqn:E; [|discriminate].
  intros _. apply spaces_then_starts in E. destruct rest; [discriminate|exact E].
Qed.

(** The indentation test of [extract_headings] only skips lines the
    heading pattern rejects anyway: they do not start with a hash. *)
Lemma indented_not_heading line :
  is_indented line = true ->
  Re.heading_full line = None /\ Re.heading_prefix line = false.
Proof.
  intros H.
  assert (exists c r, line = String c r /\ Char.is_hash c = false)
    as (c & r & -> & Hc).
  { unfold is_indented in H. apply orb_true_iff in H.
    destruct line as [|c r]; [destruct H; discriminate|].
    exists c, r. split; [reflexivity|].
    destruct H as [H|H];
      [change "    " with (String " "%char "   ") in H|unfold Str.tab in H];
      rewrite startswith_cons in H; apply andb_true_iff in H as [H _];
      apply Ascii.eqb_eq in H; subst c; reflexivity. }
  unfold Re.heading_full, Re.heading_prefix, Re.hashes_1_6.
  simpl. rewrite Hc. simpl. split; reflexivity.
Qed.

Lemma extract_from_index idx st lines h :
  h ∈ extract_from idx st lines -> (idx <= h_index h)%nat.
Proof.
  intros H. destruct (extract_from_sound _ _ _ _ H) as (k & _ & _ & _ & E & _). lia.
Qed.

Lemma find_none_extract_nil idx st lines :
  find_first_heading idx st lines = None -> extract_from idx st lines = [].
Proof.
  revert idx st. induction lines as [|line rest IH]; intros idx st; simpl;
    [reflexivity|].
  destruct (is_fence_line (Str.strip line)); [apply IH|].
  destruct (bool_decide (is_Some st)); [apply IH|].
  destruct (Re.heading_prefix line) eqn:Ep; [discriminate|].
  destruct (is_indented line); [apply IH|].
  destruct (Re.heading_full line) as [[n g2]|] eqn:Ef; [|apply IH].
  apply heading_full_prefix in Ef. congruence.
Qed.

Lemma find_before_extract idx st lines h t :
  extract_from idx st lines = h :: t ->
  exists i, find_first_heading idx st lines = Some i /\ (i <= h_index h)%nat.
Proof.
  revert idx st. induction lines as [|line rest IH]; intros idx st; simpl;
    [discriminate|].
  destruct (is_fence_line (Str.strip line)); [apply IH|].
  destruct (bool_decide (is_Some st)); [apply IH|].
  destruct (Re.heading_prefix line) eqn:Ep.
  - intros E. exists idx. split; [reflexivity|].
    assert (h ∈ h :: t) as Hin by left. rewrite <- E in Hin.
    destruct (is_indented line);
      [|destruct (Re.heading_full line) as [[n g2]|]].
    + apply extract_from_index in Hin. lia.
    + apply elem_of_cons in Hin as [->|Hin]; [unfold h_index; simpl; lia|].
      apply extract_from_index in Hin. lia.
    + apply extract_from_index in Hin. lia.
  - destruct (is_indented line); [apply IH|].
    destruct (Re.heading_full line) as [[n g2]|] eqn:Ef; [|apply IH].
    apply heading_full_prefix in Ef. congruence.
Qed.

Lemma find_eq_extract idx st lines :
  Forall (fun l => Re.heading_prefix l = true -> is_Some (Re.heading_full l)) lines ->
  find_first_heading idx st lines = h_index <$> head (extract_from idx st lines).
Proof.
  revert idx st. induction lines as [|line rest IH]; intros idx st Hall; simpl;
    [reflexivity|].
  inversion Hall as [|? ? Hl Hrest]; subst.
  destruct (is_fence_line (Str.strip line)); [apply IH, Hrest|].
  destruct (bool_decide (is_Some st)); [apply IH, Hrest|].
  destruct (Re.heading_prefix line) eqn:Ep.
  - destruct (Hl eq_refl) as [[n g2] Ef].
    destruct (is_indented line) eqn:Ei.
    + apply indented_not_heading in Ei as [Ei _]. congruence.
    + rewrite Ef. reflexivity.
  - destruct (is_indented line); [apply IH, Hrest|].
    destruct (Re.heading_full line) as [[n g2]|] eqn:Ef; [|apply IH, Hrest].
    apply heading_full_prefix in Ef. congruence.
Qed.

(** C5 (as the program has it).  The first-heading search of insert_toc
    tracks fences as extract_headings does, but its line test is weaker:
    one to six hashes followed by one whitespace character, with no text
    required after it.  So the index it finds is at most the line index of
    the first heading of extract_headings, and it is absent only if
    extract_headings returns the empty list; the two coincide (same index,
    absent exactly when the list is empty) on every line list in which
    each line passing the weaker test also matches the heading pattern. *)
Theorem first_heading_search (lines : list string) :
  (find_first_heading 0 None lines = None -> extract_headings lines = [])
  /\ (forall h t, extract_headings lines = h :: t ->
        exists i, find_first_heading 0 None lines = Some i /\ (i <= h_index h)%nat)
  /\ (Forall (fun l => Re.heading_prefix l = true -> is_Some (Re.heading_full l))
             lines ->
      find_first_heading 0 None lines = h_index <$> head (extract_headings lines)).
Proof.
  split; [apply find_none_extract_nil|].
  split; [intros h t; apply find_before_extract|apply find_eq_extract].
Qed.

Lemma first_heading_search_witness :
  let lines := ["intro"; "```"; "# no"; "```"; "## A"; "#x"] in
  find_first_heading 0 None lines = h_index <$> head (extract_headings lines)
  /\ find_first_heading 0 None lines = Some 4%nat.
Proof.
  split; [|reflexivity].
  apply (proj2 (proj2 (first_heading_search
                         ["intro"; "```"; "# no"; "```"; "## A"; "#x"]))).
  repeat constructor; vm_compute; intros H; try discriminate H; eauto.
Defined.

(** C5, counterexample.  The line made of a hash and one space is found by
    the search of insert_toc and is not a heading for extract_headings. *)
Lemma hash_space_found_not_extracted :
  find_first_heading 0 None ["# "] = Some 0%nat
  /\ extract_headings ["# "] = []
  /\ find_first_heading 0 None ["# "; "# Title"] = Some 0%nat
  /\ extract_headings ["# "; "# Title"] = [(1%Z, "Title", 1%nat)].
Proof. vm_compute. repeat split. Qed.

(** ** The marker scan of insert_toc *)

Lemma toc_start_not_end line : is_toc_start line = true -> is_toc_end line = false.
Proof.
  unfold is_toc_start, is_toc_end. intros H%String.eqb_eq. rewrite H. reflexivity.
Qed.

(** Before any start marker, lines that are not start markers are passed. *)
Lemma find_toc_skip_none a1 i rest :
  Forall (fun l => is_toc_start l = false) a1 ->
  find_toc i None (a1 ++ rest) = find_toc (i + length a1) None rest.
Proof.
  revert i. induction a1 as [|l a1 IH]; intros i H; simpl.
  - rewrite Nat.add_0_r. reflexivity.
  - inversion H as [|? ? Hl Ha]; subst. rewrite Hl, andb_false_r.
    rewrite (IH _ Ha). f_equal. lia.
Qed.

(** Lines that are not end markers never stop the scan; a start marker
    that comes after them overwrites [toc_start]. *)
Lemma find_toc_skip_to_start a2 i ts ls rest :
  Forall (fun l => is_toc_end l = false) a2 ->
  is_toc_start ls = true ->
  find_toc i ts (a2 ++ ls :: rest)
  = find_toc (i + length a2 + 1) (Some (i + length a2)%nat) rest.
Proof.
  revert i ts. induction a2 as [|l a2 IH]; intros i ts H Hs; simpl.
  - rewrite Hs, Nat.add_0_r. f_equal. lia.
  - inversion H as [|? ? Hl Ha]; subst. rewrite Hl. simpl.
    destruct (is_toc_start l); rewrite (IH _ _ Ha Hs); f_equal; try f_equal; lia.
Qed.

(** After a start marker, the first end marker stops the scan. *)
Lemma find_toc_to_end b i s le rest :
  Forall (fun l => is_toc_start l = false /\ is_toc_end l = false) b ->
  is_toc_end le = true ->
  find_toc i (Some s) (b ++ le :: rest) = (Some s, Some (i + length b)%nat).
Proof.
  revert i. induction b as [|l b IH]; intros i H He; simpl.
  - destruct (is_toc_start le) eqn:Es.
    + apply toc_start_not_end in Es. congruence.
    + rewrite He, Nat.add_0_r. reflexivity.
  - inversion H as [|? ? [Hs Hl] Hb]; subst. rewrite Hs, Hl. simpl.
    rewrite (IH _ Hb He). do 2 f_equal. lia.
Qed.

Lemma find_toc_some_inv lines i t s e :
  find_toc i (Some t) lines = (Some s, Some e) ->
  exists (a b : list string) (le : string) (c : list string),
    lines = (a ++ b ++ le :: c)%list
    /\ Forall (fun l => is_toc_end l = false) a
    /\ Forall (fun l => is_toc_start l = false /\ is_toc_end l = false) b
    /\ is_toc_end le = true
    /\ e = (i + length a + length b)%nat
    /\ ((a = [] /\ s = t)
        \/ exists (a' : list string) (ls : string),
             a = (a' ++ [ls])%list /\ is_toc_start ls = true
                         /\ s = (i + length a')%nat).
Proof.
  revert i t. induction lines as [|line rest IH]; intros i t; simpl;
    [discriminate|].
  destruct (is_toc_start line) eqn:Es.
  - intros H. destruct (IH _ _ H) as (a & b & le & c & -> & Ha & Hb & He & -> & Hs).
    pose proof (toc_start_not_end _ Es) as Hne.
    destruct Hs as [[-> ->]|(a' & ls & -> & Hls & ->)].
    + exists [line], b, le, c. repeat split; try assumption.
      * constructor; [exact Hne|constructor].
      * simpl. lia.
      * right. exists [], line. repeat split; [exact Es|simpl; lia].
    + exists (line :: a' ++ [ls]), b, le, c. repeat split; try assumption.
      * constructor; assumption.
      * simpl. lia.
      * right. exists (line :: a'), ls. repeat split; [exact Hls|simpl; lia].
  - destruct (is_toc_end line) eqn:Ee; simpl.
    + intros [= <- <-]. exists [], [], line, rest.
      split; [reflexivity|]. split; [constructor|]. split; [constructor|].
      split; [exact Ee|]. split; [simpl; lia|]. left. split; reflexivity.
    + intros H. destruct (IH _ _ H) as (a & b & le & c & -> & Ha & Hb & He & -> & Hs).
      destruct Hs as [[-> ->]|(a' & ls & -> & Hls & ->)].
      * exists [], (line :: b), le, c. repeat split; try assumption.
        -- constructor; [split|]; assumption.
        -- simpl. lia.
        -- left. split; reflexivity.
      * exists (line :: a' ++ [ls]), b, le, c. repeat split; try assumption.
        -- constructor; assumption.
        -- simpl. lia.
        -- right. exists (line :: a'), ls. repeat split; [exact Hls|simpl; lia].
Qed.

Lemma find_toc_none_inv lines i s e :
  find_toc i None lines = (Some s, Some e) ->
  exists (a1 a2 : list string) (ls : string) (b : list string)
         (le : string) (c : list string),
    lines = (a1 ++ a2 ++ ls :: b ++ le :: c)%list
    /\ Forall (fun l => is_toc_start l = false) a1
    /\ Forall (fun l => is_toc_end l = false) a2
    /\ is_toc_start ls = true
    /\ Forall (fun l => is_toc_start l = false /\ is_toc_end l = false) b
    /\ is_toc_end le = true
    /\ s = (i + length a1 + length a2)%nat
    /\ e = (s + 1 + length b)%nat.
Proof.
  revert i. induction lines as [|line rest IH]; intros i; simpl; [discriminate|].
  destruct (is_toc_start line) eqn:Es.
  - intros H. apply find_toc_some_inv in H
      as (a & b & le & c & -> & Ha & Hb & He & -> & Hs).
    destruct Hs as [[-> ->]|(a' & ls & -> & Hls & ->)].
    + exists [], [], line, b, le, c.
      split; [reflexivity|]. split; [constructor|]. split; [constructor|].
      repeat split; try assumption; simpl; lia.
    + exists [], (line :: a'), ls, b, le, c.
      apply Forall_app in Ha as [Ha _].
      repeat split; try assumption.
      * simpl. rewrite <- app_assoc. reflexivity.
      * constructor.
      * constructor; [apply toc_start_not_end; exact Es|exact Ha].
      * simpl. lia.
      * rewrite length_app. simpl. lia.
  - rewrite andb_false_r. intros H.
    destruct (IH _ H) as (a1 & a2 & ls & b & le & c & -> & H1 & H2 & Hls & Hb & He & -> & ->).
    exists (line :: a1), a2, ls, b, le, c.
    repeat split; try assumption; [constructor; assumption|simpl; lia].
Qed.

Lemma find_toc_block (a1 a2 b c : list string) (ls le : string) :
  Forall (fun l => is_toc_start l = false) a1 ->
  Forall (fun l => is_toc_end l = false) a2 ->
  is_toc_start ls = true ->
  Forall (fun l => is_toc_start l = false /\ is_toc_end l = false) b ->
  is_toc_end le = true ->
  find_toc 0 None (a1 ++ a2 ++ ls :: b ++ le :: c)
  = (Some (length a1 + length a2)%nat,
     Some (length a1 + length a2 + 1 + length b)%nat).
Proof.
  intros H1 H2 Hs Hb He.
  rewrite (find_toc_skip_none a1 0 _ H1).
  rewrite (find_toc_skip_to_start a2 _ None ls _ H2 Hs).
  rewrite (find_toc_to_end b _ _ le c Hb He). reflexivity.
Qed.

(** C3 (as the program has it).  The loop overwrites toc_start at every
    '<!-- TOC -->' line it meets, and stops at the first '<!-- /TOC -->'
    line that comes after a '<!-- TOC -->' line.  So end is the index of
    that line and start is the index of the LAST '<!-- TOC -->' line
    before end: the scan returns (start, end) exactly when the lines are
    a1 ++ a2 ++ ls :: b ++ le :: c with no start marker in a1, no end
    marker in a2, ls a start marker, neither marker in b and le an end
    marker, start being the index of ls and end the index of le; the
    lines removed are ls, b and le, and start markers in a2 stay. *)
Theorem toc_block_location (lines : list string) :
  (forall s e : nat,
     find_toc 0 None lines = (Some s, Some e) <->
     exists (a1 a2 : list string) (ls : string) (b : list string)
            (le : string) (c : list string),
       lines = (a1 ++ a2 ++ ls :: b ++ le :: c)%list
       /\ Forall (fun l => is_toc_start l = false) a1
       /\ Forall (fun l => is_toc_end l = false) a2
       /\ is_toc_start ls = true
       /\ Forall (fun l => is_toc_start l = false /\ is_toc_end l = false) b
       /\ is_toc_end le = true
       /\ s = (length a1 + length a2)%nat
       /\ e = (s + 1 + length b)%nat)
  /\ (forall s e : nat,
        find_toc 0 None lines = (Some s, Some e) ->
        (s < e)%nat /\ remove_toc_block lines = (take s lines ++ drop (e + 1) lines)%list)
  /\ (forall (a1 a2 : list string) (ls : string) (b : list string)
             (le : string) (c : list string),
        lines = (a1 ++ a2 ++ ls :: b ++ le :: c)%list ->
        Forall (fun l => is_toc_start l = false) a1 ->
        Forall (fun l => is_toc_end l = false) a2 ->
        is_toc_start ls = true ->
        Forall (fun l => is_toc_start l = false /\ is_toc_end l = false) b ->
        is_toc_end le = true ->
        remove_toc_block lines = (a1 ++ a2 ++ c)%list).
Proof.
  split; [|split].
  - intros s e. split.
    + intros H. apply find_toc_none_inv in H. simpl in H. exact H.
    + intros (a1 & a2 & ls & b & le & c & -> & H1 & H2 & Hs & Hb & He & -> & ->).
      apply find_toc_block; assumption.
  - intros s e H. unfold remove_toc_block. rewrite H. split; [|reflexivity].
    apply find_toc_none_inv in H
      as (a1 & a2 & ls & b & le & c & _ & _ & _ & _ & _ & _ & -> & ->). lia.
  - intros a1 a2 ls b le c -> H1 H2 Hs Hb He. unfold remove_toc_block.
    rewrite (find_toc_block a1 a2 b c ls le H1 H2 Hs Hb He).
    rewrite (app_assoc a1 a2).
    rewrite take_app_length' by (rewrite length_app; reflexivity).
    replace (length a1 + length a2 + 1 + length b + 1)%nat
      with (length (a1 ++ a2) + (S (length b) + 1))%nat
      by (rewrite length_app; lia).
    rewrite drop_app_add.
    change (ls :: b ++ le :: c)%list with ((ls :: b) ++ le :: c)%list.
    change (S (length b)) with (length (ls :: b)).
    rewrite drop_app_add. simpl. rewrite app_assoc. reflexivity.
Qed.

Lemma toc_block_location_witness :
  let lines :=
    ["# T"; "<!-- TOC -->"; "x"; "<!-- TOC -->"; "y"; "<!-- /TOC -->"; "end"] in
  remove_toc_block lines = ["# T"; "<!-- TOC -->"; "x"; "end"].
Proof.
  apply (proj2 (proj2 (toc_block_location
           ["# T"; "<!-- TOC -->"; "x"; "<!-- TOC -->"; "y"; "<!-- /TOC -->"; "end"]))
           ["# T"] ["<!-- TOC -->"; "x"] "<!-- TOC -->" ["y"] "<!-- /TOC -->" ["end"]).
  - reflexivity.
  - repeat constructor.
  - repeat constructor.
  - reflexivity.
  - repeat constructor.
  - reflexivity.
Defined.

(** C3, counterexample.  Two '<!-- TOC -->' lines precede the first
    '<!-- /TOC -->' line: the earliest one is line 0, and the removal
    begins at line 2, the later one; lines 0 and 1 stay. *)
Lemma removal_begins_at_last_start :
  let lines := ["<!-- TOC -->"; "x"; "<!-- TOC -->"; "y"; "<!-- /TOC -->"] in
  is_toc_start "<!-- TOC -->" = true
  /\ lines !! 0%nat = Some "<!-- TOC -->"
  /\ find_toc 0 None lines = (Some 2%nat, Some 4%nat)
  /\ remove_toc_block lines = ["<!-- TOC -->"; "x"].
Proof. vm_compute. repeat split. Qed.

(** ** insert_toc *)

(** Without a heading the new block is put in front of [content] as it
    was read, not in front of the lines left after the removal. *)
Lemma insert_toc_no_heading content toc :
  find_first_heading 0 None (remove_toc_block (Str.split_lines content)) = None ->
  insert_toc content toc
  = (TOC_START ++ Str.nl ++ toc ++ Str.nl ++ TOC_END ++ Str.nl ++ Str.nl)
    ++ content.
Proof. intros H. unfold insert_toc. rewrite H. reflexivity. Qed.

(** C4, on the failing input.  The document holds a TOC block and no
    heading.  The block is found and removed from the line list, no
    heading is found, and the result is the new block followed by the
    document as it was, old block included: two TOC blocks.  The same
    happens on a run of the whole program when the only headings of the
    document sit between the markers. *)
Theorem no_heading_keeps_old_block :
  let content :=
    Str.join_lines ["<!-- TOC -->"; "old"; "<!-- /TOC -->"; "text"] in
  let inside :=
    Str.join_lines ["<!-- TOC -->"; "# A"; "## B"; "<!-- /TOC -->"; "text"] in
  remove_toc_block (Str.split_lines content) = ["text"]
  /\ find_first_heading 0 None ["text"] = None
  /\ insert_toc content "new"
     = Str.join_lines ["<!-- TOC -->"; "new"; "<!-- /TOC -->"; "";
                       "<!-- TOC -->"; "old"; "<!-- /TOC -->"; "text"]
  /\ process inside 3 true
     = Some (Str.join_lines
               ["<!-- TOC -->"; "- [B](#b)"; "<!-- /TOC -->"; "";
                "<!-- TOC -->"; "# A"; "## B"; "<!-- /TOC -->"; "text"]).
Proof. vm_compute. repeat split. Qed.

(** C1, on the failing input.  A first run puts a blank line and the block
    after the first heading; a second run removes the block, from marker
    to marker, and leaves that blank line, then inserts a blank line and
    the block again: the document grows by one blank line at every run. *)
Theorem refresh_adds_blank_line :
  let d := Str.join_lines ["# T"; "## A"] in
  let d1 := refresh d in
  let d2 := refresh d1 in
  d1 = Str.join_lines
         ["# T"; ""; "<!-- TOC -->"; "- [A](#a)"; "<!-- /TOC -->"; "## A"]
  /\ d2 = Str.join_lines
            ["# T"; ""; "<!-- TOC -->"; "- [A](#a)"; "<!-- /TOC -->"; ""; "## A"]
  /\ d2 <> d1
  /\ process d 3 true = Some d1
  /\ process d1 3 true = Some d2.
Proof. vm_compute. repeat split. discriminate. Qed.


(** * Further properties of the program *)

(** ** heading_to_anchor *)

Lemma anchor_char_spec c :
  anchor_char c = true ->
  (Char.isword c = true \/ c = "-"%char)
  /\ Char.lower c = c /\ Char.isspace c = false.
Proof.
  intros H. split; [|split].
  - unfold anchor_char in H. apply andb_true_iff in H as [H _].
    apply orb_true_iff in H as [H|H]; [left; exact H|right; exact (is_hyphen_eq _ H)].
  - apply lower_fixed, anchor_char_not_upper, H.
  - apply anchor_char_not_space, H.
Qed.

Lemma all_forall p s :
  Str.all p s = true <->
  forall i c, String.get i s = Some c -> p c = true.
Proof.
  induction s as [|a s IH]; simpl.
  - split; [intros _ i c; discriminate|reflexivity].
  - rewrite andb_true_iff, IH. split.
    + intros [Ha Hs] [|i] c; [intros [= <-]; exact Ha|apply Hs].
    + intros H. split; [exact (H 0%nat a eq_refl)|].
      intros i c Hi. exact (H (S i) c Hi).
Qed.

(** An anchor is a slug: each of its characters is a word character or a
    hyphen, is unchanged by lowercasing and is not whitespace; no two
    hyphens are adjacent; stripping hyphens at its ends changes nothing. *)
Theorem anchor_is_slug (text : string) :
  (forall i c, String.get i (heading_to_anchor text) = Some c ->
     (Char.isword c = true \/ c = "-"%char)
     /\ Char.lower c = c /\ Char.isspace c = false)
  /\ (forall i c d,
        String.get i (heading_to_anchor text) = Some c ->
        String.get (S i) (heading_to_anchor text) = Some d ->
        ~ (c = "-"%char /\ d = "-"%char))
  /\ Str.strip_with Char.is_hyphen (heading_to_anchor text)
     = heading_to_anchor text.
Proof.
  destruct (anchor_shape text) as (Hall & Hadj & Htrim).
  split; [|split].
  - intros i c Hi. apply anchor_char_spec.
    exact (proj1 (all_forall _ _) Hall i c Hi).
  - clear Hall Htrim. revert Hadj.
    generalize (heading_to_anchor text) as a.
    induction a as [|x a IH]; intros Hadj i c d Hc Hd; [discriminate|].
    rewrite no_adjacent_cons in Hadj. apply andb_true_iff in Hadj as [Hx Ha].
    destruct i as [|i]; [|exact (IH Ha i c d Hc Hd)].
    simpl in Hc, Hd. injection Hc as <-. intros [-> ->].
    destruct a as [|y a]; [discriminate|]. simpl in Hd. injection Hd as ->.
    simpl in Hx. discriminate.
  - apply strip_with_id, Htrim.
Qed.

Lemma all_drop p n s : Str.all p s = true -> Str.all p (Str.drop n s) = true.
Proof.
  revert s. induction n as [|n IH]; intros [|c s]; simpl; auto.
  intros [_ H]%andb_true_iff. exact (IH _ H).
Qed.

Lemma all_lazy_until_close p s rest :
  Re.lazy_until_close s = Some rest -> Str.all p s = true -> Str.all p rest = true.
Proof.
  revert rest. induction s as [|c s IH]; intros rest;
    cbn [Re.lazy_until_close].
  - discriminate.
  - destruct (Str.startswith (String c s) "-->").
    + intros [= <-] H. exact (all_drop p 3 _ H).
    + destruct (Char.is_newline c); [discriminate|].
      intros E [_ H]%andb_true_iff. exact (IH _ E H).
Qed.

Lemma all_span p q s a b :
  Str.span q s = (a, b) -> Str.all p s = true ->
  Str.all p a = true /\ Str.all p b = true.
Proof.
  revert a b. induction s as [|c s IH]; simpl; intros a b E H.
  - injection E as <- <-. split; reflexivity.
  - destruct (q c).
    + destruct (Str.span q s) as [a' b'] eqn:Es. injection E as <- <-.
      apply andb_true_iff in H as [Hc Hs].
      destruct (IH _ _ eq_refl Hs) as [Ha Hb]. simpl. rewrite Hc, Ha. auto.
    + injection E as <- <-. split; [reflexivity|exact H].
Qed.

(** The two markup removals only delete characters. *)
Lemma sub_html_comment_all p s :
  Str.all p s = true -> Str.all p (Re.sub Re.html_comment s) = true.
Proof.
  apply sub_all; [apply html_comment_consuming| |].
  - intros x repl rest Hx. unfold Re.html_comment.
    destruct (Str.startswith x "<!--"); [|discriminate].
    destruct (Re.lazy_until_close (Str.drop 4 x)) as [y|] eqn:E; [|discriminate].
    intros [= <- <-]. split; [reflexivity|].
    exact (all_lazy_until_close p _ _ E (all_drop p 4 _ Hx)).
  - intros c r Hc _. exact Hc.
Qed.

Lemma sub_code_span_all p s :
  Str.all p s = true -> Str.all p (Re.sub Re.code_span s) = true.
Proof.
  apply sub_all; [apply code_span_consuming| |].
  - intros [|c r] repl rest Hx; simpl; [discriminate|].
    destruct (Char.is_backtick c); [|discriminate].
    destruct (Str.span _ r) as [[|a inner] [|b tl]] eqn:E; try discriminate.
    intros [= <- <-]. simpl in Hx. apply andb_true_iff in Hx as [_ Hr].
    destruct (all_span p _ _ _ _ E Hr) as [Ha Hb]. split; [exact Ha|].
    simpl in Hb. apply andb_true_iff in Hb as [_ Hb]. exact Hb.
  - intros c r Hc _. exact Hc.
Qed.

Lemma lower_not_word c : Char.isword c = false -> Char.isword (Char.lower c) = false.
Proof. each_char c. Qed.

Lemma lstrip_all p s : Str.all p s = true -> Str.lstrip p s = "".
Proof.
  induction s as [|c s IH]; simpl; [reflexivity|].
  intros [Hc Hs]%andb_true_iff. rewrite Hc. exact (IH Hs).
Qed.

Lemma sub_hyphens_of_hyphens s :
  Str.all Char.is_hyphen s = true ->
  Re.sub (Re.run_of Char.is_hyphen) s = "" \/ Re.sub (Re.run_of Char.is_hyphen) s = "-".
Proof.
  destruct s as [|c r]; [left; reflexivity|].
  intros [Hc Hr]%andb_true_iff. right.
  rewrite sub_cons by apply run_of_consuming. simpl. rewrite Hc.
  rewrite (lstrip_all _ _ Hr). reflexivity.
Qed.

(** A heading text without any word character (punctuation, spaces,
    markup only) has the empty anchor. *)
Theorem anchor_without_word_char (text : string) :
  Str.all (fun c => negb (Char.isword c)) text = true ->
  heading_to_anchor text = "".
Proof.
  intros H. unfold heading_to_anchor.
  apply (sub_html_comment_all _ _) in H. apply (sub_code_span_all _ _) in H.
  set (t := Re.sub Re.code_span (Re.sub Re.html_comment text)) in *.
  assert (Str.all (fun c => negb (Char.isword c)) (Str.lower t) = true) as Hl.
  { clearbody t. induction t as [|c t IH]; [reflexivity|]. simpl in *.
    apply andb_true_iff in H as [Hc Ht]. apply negb_true_iff in Hc.
    rewrite (lower_not_word _ Hc). exact (IH Ht). }
  assert (Str.all (fun c => Char.isspace c || Char.is_hyphen c)
            (Re.sub Re.not_word_space_hyphen (Str.lower t)) = true) as H4.
  { revert Hl. apply sub_all; [apply not_word_space_hyphen_consuming| |].
    - intros [|c r] repl rest Hs; simpl; [discriminate|].
      destruct (negb _); [|discriminate]. intros [= <- <-]. split; [reflexivity|].
      simpl in Hs. apply andb_true_iff in Hs as [_ Hs]. exact Hs.
    - intros c r Hc. simpl. apply negb_true_iff in Hc. rewrite Hc. simpl.
      destruct (Char.isspace c || Char.is_hyphen c); [reflexivity|discriminate]. }
  assert (Str.all Char.is_hyphen
            (Re.sub (Re.run_of Char.isspace)
               (Re.sub Re.not_word_space_hyphen (Str.lower t))) = true) as H5.
  { revert H4. apply sub_all; [apply run_of_consuming| |].
    - intros [|c r] repl rest Hs; simpl; [discriminate|].
      destruct (Char.isspace c); [|discriminate]. intros [= <- <-].
      split; [reflexivity|]. apply all_lstrip.
      simpl in Hs. apply andb_true_iff in Hs as [_ Hs]. exact Hs.
    - intros c r Hc. simpl. destruct (Char.isspace c); [discriminate|].
      intros _. exact Hc. }
  destruct (sub_hyphens_of_hyphens _ H5) as [-> | ->]; reflexivity.
Qed.

Lemma anchor_without_word_char_witness : heading_to_anchor "?! (...) <!-- ** --> `::`" = "".
Proof. apply anchor_without_word_char. reflexivity. Defined.

(** *** Case of the letters *)









Lemma length_map f s : String.length (Str.map f s) = String.length s.
Proof. induction s as [|c s IH]; simpl; [reflexivity|]. rewrite IH. reflexivity. Qed.








(** ** extract_headings *)

Lemma extract_from_complete lines idx st k line n g2 :
  lines !! k = Some line ->
  is_fence_line (Str.strip line) = false ->
  scan_fences st (take k lines) = None ->
  Re.heading_full line = Some (n, g2) ->
  (Z.of_nat n, Str.strip g2, (idx + k)%nat) ∈ extract_from idx st lines.
Proof.
  revert idx st k. induction lines as [|l0 rest IH]; intros idx st k Hl Hf Hs Hm;
    [discriminate|].
  destruct k as [|k].
  - injection Hl as ->. simpl in Hs. subst st. simpl. rewrite Hf.
    destruct (is_indented line) eqn:Ei;
      [apply indented_not_heading in Ei as [Ei _]; congruence|].
    rewrite Hm, Nat.add_0_r. left.
  - simpl in Hl. simpl take in Hs. rewrite scan_fences_cons in Hs.
    replace (idx + S k)%nat with (S idx + k)%nat by lia.
    pose proof (fun st' => IH (S idx) st' k Hl Hf) as IH'.
    simpl. destruct (is_fence_line (Str.strip l0)); [exact (IH' _ Hs Hm)|].
    destruct (bool_decide (is_Some st)); [exact (IH' _ Hs Hm)|].
    destruct (is_indented l0); [exact (IH' _ Hs Hm)|].
    destruct (Re.heading_full l0) as [[n0 g0]|]; [right|]; exact (IH' _ Hs Hm).
Qed.

Lemma extract_headings_member (lines : list string) (h : heading) :
  h ∈ extract_headings lines <->
  exists line n g2,
    lines !! h_index h = Some line
    /\ is_fence_line (Str.strip line) = false
    /\ scan_fences None (take (h_index h) lines) = None
    /\ Re.heading_full line = Some (n, g2)
    /\ h_level h = Z.of_nat n /\ h_text h = Str.strip g2.
Proof.
  split.
  - intros Hin. destruct (extract_from_sound _ _ _ _ Hin)
      as (k & line & n & g2 & Hi & Hl & Hf & Hs & Hm & Hlv & Ht).
    simpl in Hi. subst k. exists line, n, g2. repeat split; assumption.
  - intros (line & n & g2 & Hl & Hf & Hs & Hm & Hlv & Ht).
    destruct h as [[lv tx] ix]. unfold h_level, h_text, h_index in *.
    simpl in *. subst lv tx.
    exact (extract_from_complete lines 0 None ix line n g2 Hl Hf Hs Hm).
Qed.

(** Which headings are recorded: exactly the lines that are reached
    outside any fence, are not fence delimiters and match the heading
    pattern; the level is the number of hashes and the text is group 2,
    stripped. *)
Theorem extract_headings_spec (lines : list string) (h : heading) :
  h ∈ extract_headings lines <->
  exists line n g2,
    lines !! h_index h = Some line
    /\ is_fence_line (Str.strip line) = false
    /\ scan_fences None (take (h_index h) lines) = None
    /\ Re.heading_full line = Some (n, g2)
    /\ h_level h = Z.of_nat n /\ h_text h = Str.strip g2.
Proof. apply extract_headings_member. Qed.

Lemma span_all_fst p s a b : Str.span p s = (a, b) -> Str.all p a = true.
Proof.
  revert a b. induction s as [|c s IH]; simpl; intros a b E.
  - injection E as <- <-. reflexivity.
  - destruct (p c) eqn:Ec.
    + destruct (Str.span p s) as [a' b'] eqn:Es. injection E as <- <-.
      simpl. rewrite Ec. exact (IH _ _ eq_refl).
    + injection E as <- <-. reflexivity.
Qed.

Lemma dot_plus_eol_one_line s g : Re.dot_plus_eol s = Some g -> one_line g = true.
Proof.
  unfold Re.dot_plus_eol.
  destruct (Str.span _ s) as [[|a body] tl] eqn:E; [discriminate|].
  destruct (_ || _); [|discriminate]. intros [= <-].
  exact (span_all_fst _ _ _ _ E).
Qed.

Lemma spaces_then_some {A} (k : string -> option A) s x :
  Re.spaces_then k s = Some x -> exists r, k r = Some x.
Proof.
  induction s as [|c s IH]; simpl; [discriminate|].
  destruct (Char.isspace c); [|discriminate].
  destruct (Re.spaces_then k s) as [y|]; [intros [= <-]; apply IH; reflexivity|].
  intros H. eauto.
Qed.

Lemma heading_full_bounds line n g2 :
  Re.heading_full line = Some (n, g2) ->
  (1 <= n <= 6)%nat /\ one_line g2 = true.
Proof.
  unfold Re.heading_full, Re.hashes_1_6.
  destruct (Str.span Char.is_hash line) as [hs rest].
  destruct ((1 <=? String.length hs)%nat && (String.length hs <=? 6)%nat) eqn:E;
    [|discriminate].
  destruct (Re.spaces_then Re.dot_plus_eol rest) as [g|] eqn:Es; [|discriminate].
  intros [= <- <-]. apply andb_true_iff in E as [E1 E2].
  apply Nat.leb_le in E1, E2. split; [lia|].
  apply spaces_then_some in Es as [r Hr]. exact (dot_plus_eol_one_line _ _ Hr).
Qed.

Lemma extract_from_sorted idx st lines :
  StronglySorted lt (h_index <$> extract_from idx st lines).
Proof.
  revert idx st. induction lines as [|line rest IH]; intros idx st; simpl;
    [constructor|].
  destruct (is_fence_line (Str.strip line)); [apply IH|].
  destruct (bool_decide (is_Some st)); [apply IH|].
  destruct (is_indented line); [apply IH|].
  destruct (Re.heading_full line) as [[n g2]|]; [|apply IH].
  rewrite fmap_cons. constructor; [apply IH|].
  apply Forall_fmap, Forall_forall. intros h Hin.
  apply extract_from_index in Hin. unfold h_index at 1. simpl. lia.
Qed.

(** Every recorded heading has a level from 1 to 6, the index of a line
    of the input, and a text that is stripped and holds no newline; the
    headings come in the order of their lines. *)
Theorem extract_headings_wellformed (lines : list string) :
  Forall (fun h =>
            (1 <= h_level h <= 6)%Z
            /\ (h_index h < length lines)%nat
            /\ Str.strip (h_text h) = h_text h
            /\ one_line (h_text h) = true)
         (extract_headings lines)
  /\ StronglySorted lt (h_index <$> extract_headings lines).
Proof.
  split; [|apply extract_from_sorted].
  apply Forall_forall. intros h Hin.
  apply extract_headings_member in Hin
    as (line & n & g2 & Hl & _ & _ & Hm & -> & ->).
  apply heading_full_bounds in Hm as [Hn Hg].
  split; [lia|]. split; [exact (lookup_lt_Some _ _ _ Hl)|]. split.
  - apply strip_with_id, strip_with_trimmed.
  - unfold Str.strip, Str.strip_with, one_line. apply all_rstrip, all_lstrip, Hg.
Qed.

Lemma extract_from_app idx st l1 l2 :
  extract_from idx st (l1 ++ l2)
  = (extract_from idx st l1
     ++ extract_from (idx + length l1) (scan_fences st l1) l2)%list.
Proof.
  revert idx st. induction l1 as [|line l1 IH]; intros idx st.
  - simpl. rewrite Nat.add_0_r. reflexivity.
  - rewrite scan_fences_cons. simpl.
    replace (idx + S (length l1))%nat with (S idx + length l1)%nat by lia.
    destruct (is_fence_line (Str.strip line)); [apply IH|].
    destruct (bool_decide (is_Some st)); [apply IH|].
    destruct (is_indented line); [apply IH|].
    destruct (Re.heading_full line) as [[n g2]|]; [|apply IH].
    rewrite IH. reflexivity.
Qed.

Lemma extract_from_fence_line idx st line rest :
  is_fence_line (Str.strip line) = true ->
  extract_from idx st (line :: rest)
  = extract_from (S idx) (fence_step st (Str.strip line)) rest.
Proof. intros H. cbn [extract_from]. rewrite H. reflexivity. Qed.

Lemma extract_from_unclosed idx m ls :
  Forall (fun l => Str.startswith (Str.strip l) m = false) ls ->
  extract_from idx (Some m) ls = [].
Proof.
  revert idx. induction ls as [|l ls IH]; intros idx H; [reflexivity|].
  inversion H as [|? ? Hl Hls]; subst. simpl. rewrite Hl.
  destruct (is_fence_line (Str.strip l)); exact (IH _ Hls).
Qed.

Lemma startswith_take s p :
  Str.startswith s p = true -> Str.take (String.length p) s = p.
Proof.
  revert s. induction p as [|x p IH]; intros [|c s]; try reflexivity.
  - discriminate.
  - rewrite startswith_cons. intros [Hx Hp]%andb_true_iff.
    apply Ascii.eqb_eq in Hx. subst c. simpl. rewrite (IH _ Hp). reflexivity.
Qed.

(** The marker of a fence line is one of the two delimiters, and the line
    starts with it. *)
Lemma fence_marker s :
  is_fence_line s = true ->
  (Str.take 3 s = "```" \/ Str.take 3 s = "~~~")
  /\ Str.startswith s (Str.take 3 s) = true.
Proof.
  unfold is_fence_line. intros [H|H]%orb_true_iff;
    pose proof (startswith_take _ _ H) as E; simpl String.length in E;
    rewrite E; auto.
Qed.

Lemma closer_is_fence_line opener closer :
  is_fence_line opener = true ->
  Str.startswith closer (Str.take 3 opener) = true ->
  is_fence_line closer = true.
Proof.
  intros [[E|E] _]%fence_marker; rewrite E; unfold is_fence_line;
    intros ->; [reflexivity|apply orb_true_r].
Qed.

(** A fenced block is skipped as a whole.  When the tracker is in the
    Normal state after [pre], [opener] opens a fence and no line of [body]
    starts with its marker, the headings are those of [pre] if the fence
    is never closed (everything up to the end of the document is hidden),
    and those of [pre] followed by those of the lines after the closing
    delimiter otherwise. *)
Theorem fenced_block_hidden
    (pre body : list string) (opener : string) :
  scan_fences None pre = None ->
  is_fence_line (Str.strip opener) = true ->
  Forall (fun l =>
            Str.startswith (Str.strip l) (Str.take 3 (Str.strip opener)) = false)
         body ->
  extract_headings (pre ++ opener :: body) = extract_headings pre
  /\ forall (closer : string) (post : list string),
       Str.startswith (Str.strip closer) (Str.take 3 (Str.strip opener)) = true ->
       extract_headings (pre ++ opener :: body ++ closer :: post)
       = (extract_headings pre
          ++ extract_from (length pre + length body + 2) None post)%list.
Proof.
  intros Hpre Hopen Hbody. unfold extract_headings.
  assert (forall rest,
    extract_from 0 None (pre ++ opener :: body ++ rest)
    = (extract_from 0 None pre
       ++ extract_from (length pre + 1 + length body)
            (Some (Str.take 3 (Str.strip opener))) rest)%list) as Hsplit.
  { intros rest. rewrite extract_from_app, Hpre. f_equal.
    rewrite (extract_from_fence_line _ _ _ _ Hopen).
    change (fence_step None (Str.strip opener))
      with (Some (Str.take 3 (Str.strip opener))).
    rewrite extract_from_app, (extract_from_unclosed _ _ _ Hbody).
    rewrite (scan_fences_unclosed _ _ Hbody). rewrite app_nil_l. f_equal. lia. }
  split.
  - rewrite <- (app_nil_r body), Hsplit. apply app_nil_r.
  - intros closer post Hclose. rewrite Hsplit. f_equal.
    rewrite (extract_from_fence_line _ _ _ _
               (closer_is_fence_line _ _ Hopen Hclose)).
    unfold fence_step. rewrite Hclose. f_equal. lia.
Qed.

Lemma fenced_block_hidden_witness :
  extract_headings ["# T"; "````sh"; "# no"; "~~~"; "```"; "## A"]
  = [(1%Z, "T", 0%nat); (2%Z, "A", 5%nat)].
Proof.
  exact (eq_trans
           (proj2 (fenced_block_hidden ["# T"] ["# no"; "~~~"] "````sh"
                     eq_refl eq_refl ltac:(repeat constructor))
                  "```" ["## A"] eq_refl)
           eq_refl).
Defined.

(** *** Which lines are headings *)

Lemma span_app_all p x rest :
  Str.all p x = true ->
  Str.span p (x ++ rest) = (x ++ (Str.span p rest).1, (Str.span p rest).2).
Proof.
  induction x as [|c x IH].
  - intros _. change ("" ++ rest) with rest.
    destruct (Str.span p rest). reflexivity.
  - intros [Hc Hx]%andb_true_iff.
    change (String c x ++ rest) with (String c (x ++ rest)).
    cbn [Str.span]. rewrite Hc, (IH Hx). reflexivity.
Qed.

Lemma span_not_starts p s : starts p s = false -> Str.span p s = ("", s).
Proof. destruct s as [|c s]; simpl; [reflexivity|]. intros ->. reflexivity. Qed.

Lemma span_all p s : Str.all p s = true -> Str.span p s = (s, "").
Proof.
  induction s as [|c s IH]; simpl; [reflexivity|].
  intros [Hc Hs]%andb_true_iff. rewrite Hc, (IH Hs). reflexivity.
Qed.

Lemma str_app_nil_r s : s ++ "" = s.
Proof.
  induction s as [|c s IH]; [reflexivity|].
  change (String c s ++ "") with (String c (s ++ "")). rewrite IH. reflexivity.
Qed.

(** The hashes at the start of a line, and what the patterns see. *)
Lemma hashes_1_6_app hs rest :
  Str.all Char.is_hash hs = true -> starts Char.is_hash rest = false ->
  Re.hashes_1_6 (hs ++ rest) =
    if (1 <=? String.length hs)%nat && (String.length hs <=? 6)%nat
    then Some (String.length hs, rest) else None.
Proof.
  intros Hh Hr. unfold Re.hashes_1_6.
  rewrite (span_app_all _ _ _ Hh), (span_not_starts _ _ Hr). simpl.
  rewrite str_app_nil_r. reflexivity.
Qed.

Lemma heading_prefix_app hs rest :
  Str.all Char.is_hash hs = true -> starts Char.is_hash rest = false ->
  Re.heading_prefix (hs ++ rest) =
    (1 <=? String.length hs)%nat && (String.length hs <=? 6)%nat
    && starts Char.isspace rest.
Proof.
  intros Hh Hr. unfold Re.heading_prefix. rewrite (hashes_1_6_app _ _ Hh Hr).
  destruct ((1 <=? String.length hs)%nat && (String.length hs <=? 6)%nat);
    [|reflexivity].
  destruct rest; reflexivity.
Qed.

Lemma find_first_heading_sound idx st lines i :
  find_first_heading idx st lines = Some i ->
  exists k line,
    i = (idx + k)%nat /\ lines !! k = Some line
    /\ Re.heading_prefix line = true
    /\ is_fence_line (Str.strip line) = false
    /\ scan_fences st (take k lines) = None.
Proof.
  revert idx st. induction lines as [|line rest IH]; intros idx st; simpl;
    [discriminate|].
  assert (forall st',
    st' = (if is_fence_line (Str.strip line)
           then fence_step st (Str.strip line) else st) ->
    find_first_heading (S idx) st' rest = Some i ->
    exists k line0,
      i = (idx + k)%nat /\ (line :: rest) !! k = Some line0
      /\ Re.heading_prefix line0 = true
      /\ is_fence_line (Str.strip line0) = false
      /\ scan_fences st (take k (line :: rest)) = None) as Hrest.
  { intros st' -> H. destruct (IH _ _ H) as (k & l0 & -> & Hl & Hp & Hf & Hs).
    exists (S k), l0. split; [lia|]. split; [exact Hl|]. split; [exact Hp|].
    split; [exact Hf|]. simpl take. rewrite scan_fences_cons. exact Hs. }
  destruct (is_fence_line (Str.strip line)) eqn:Ef;
    [intros H; exact (Hrest _ eq_refl H)|].
  destruct st as [m|]; simpl; [intros H; exact (Hrest _ eq_refl H)|].
  destruct (Re.heading_prefix line) eqn:Ep; [|intros H; exact (Hrest _ eq_refl H)].
  intros [= <-]. exists 0%nat, line. repeat split; try assumption. lia.
Qed.

(** What is never a heading: a line whose run of leading hashes is empty
    or longer than six, or is not followed by a whitespace character.  No
    heading is recorded for such a line, and the first-heading search of
    insert_toc never stops on it. *)
Theorem not_a_heading_line
    (lines : list string) (k : nat) (hs rest : string) :
  lines !! k = Some (hs ++ rest) ->
  Str.all Char.is_hash hs = true ->
  starts Char.is_hash rest = false ->
  (String.length hs = 0 \/ 6 < String.length hs
   \/ starts Char.isspace rest = false)%nat ->
  (forall h, h ∈ extract_headings lines -> h_index h <> k)
  /\ find_first_heading 0 None lines <> Some k.
Proof.
  intros Hl Hh Hr Hbad.
  assert (Re.heading_prefix (hs ++ rest) = false) as Hp.
  { rewrite (heading_prefix_app _ _ Hh Hr).
    destruct Hbad as [E|[E|E]].
    - rewrite E. reflexivity.
    - apply Nat.leb_gt in E. rewrite E, andb_false_r. reflexivity.
    - rewrite E. apply andb_false_r. }
  split.
  - intros h Hin E. apply extract_headings_member in Hin
      as (line & n & g2 & Hl' & _ & _ & Hm & _).
    rewrite E, Hl in Hl'. injection Hl' as <-.
    apply heading_full_prefix in Hm. congruence.
  - intros H. apply find_first_heading_sound in H
      as (k' & line & E & Hl' & Hp' & _). simpl in E. subst k'.
    rewrite Hl in Hl'. injection Hl' as <-. congruence.
Qed.

Lemma not_a_heading_line_witness :
  (forall h, h ∈ extract_headings ["# T"; "####### deep"; "#tag"] ->
             h_index h <> 1%nat)
  /\ find_first_heading 0 None ["# T"; "####### deep"; "#tag"] <> Some 1%nat.
Proof.
  apply (not_a_heading_line ["# T"; "####### deep"; "#tag"] 1 "#######" " deep").
  - reflexivity.
  - reflexivity.
  - reflexivity.
  - right. left. simpl. lia.
Defined.

Lemma length_repeat_hash n : String.length (Str.repeat_nat "#" n) = n.
Proof.
  induction n as [|n IH]; [reflexivity|].
  cbn [Str.repeat_nat]. rewrite str_length_app, IH. reflexivity.
Qed.

Lemma all_repeat_hash n : Str.all Char.is_hash (Str.repeat_nat "#" n) = true.
Proof. induction n as [|n IH]; [reflexivity|exact IH]. Qed.

Lemma space_not_hash c : Char.isspace c = true -> Char.is_hash c = false.
Proof. each_char c. Qed.

Lemma spaces_then_not_starts {A} (k : string -> option A) s :
  starts Char.isspace s = false -> Re.spaces_then k s = None.
Proof. destruct s as [|c s]; simpl; [reflexivity|]. intros ->. reflexivity. Qed.

Lemma dot_plus_eol_one_line_text text :
  text <> "" -> one_line text = true -> Re.dot_plus_eol text = Some text.
Proof.
  intros Hne Hl. unfold Re.dot_plus_eol. rewrite (span_all _ _ Hl).
  destruct text; [contradiction|reflexivity].
Qed.

Lemma rstrip_keeps_head p c r :
  p c = false -> exists r', Str.rstrip p (String c r) = String c r'.
Proof.
  intros Hc. simpl. destruct (Str.rstrip p r); [rewrite Hc|]; eauto.
Qed.

Lemma hash_line_not_fence r : is_fence_line (Str.strip (String "#" r)) = false.
Proof.
  unfold Str.strip, Str.strip_with.
  change (Str.lstrip Char.isspace (String "#" r)) with (String "#"%char r).
  destruct (rstrip_keeps_head Char.isspace "#" r eq_refl) as [r' ->].
  unfold is_fence_line.
  change "```" with (String "`"%char "``"). change "~~~" with (String "~"%char "~~").
  rewrite !startswith_cons. reflexivity.
Qed.

(** What is a heading: one to six hashes, one whitespace character, and a
    text that is not empty, holds no newline and does not start with
    whitespace.  Alone in a document, such a line is recorded with the
    number of hashes as level and the text, stripped. *)
Theorem atx_heading_recognised (n : nat) (ws : ascii) (text : string) :
  (1 <= n <= 6)%nat ->
  Char.isspace ws = true ->
  text <> "" -> one_line text = true -> starts Char.isspace text = false ->
  Re.heading_full (Str.repeat_nat "#" n ++ String ws text) = Some (n, text)
  /\ extract_headings [Str.repeat_nat "#" n ++ String ws text]
     = [(Z.of_nat n, Str.strip text, 0%nat)].
Proof.
  intros Hn Hws Hne Hl Hs.
  assert (Re.heading_full (Str.repeat_nat "#" n ++ String ws text) = Some (n, text))
    as Hfull.
  { unfold Re.heading_full.
    rewrite (hashes_1_6_app (Str.repeat_nat "#" n) (String ws text)
               (all_repeat_hash n) (space_not_hash _ Hws)).
    rewrite length_repeat_hash.
    destruct (Nat.leb_spec 1 n); [|lia]. destruct (Nat.leb_spec n 6); [|lia].
    simpl andb. cbn [Re.spaces_then]. rewrite Hws.
    rewrite (spaces_then_not_starts _ _ Hs).
    rewrite (dot_plus_eol_one_line_text _ Hne Hl). reflexivity. }
  split; [exact Hfull|].
  unfold extract_headings. cbn [extract_from].
  destruct n as [|n]; [lia|].
  change (Str.repeat_nat "#" (S n) ++ String ws text)
    with (String "#"%char (Str.repeat_nat "#" n ++ String ws text)) in *.
  rewrite hash_line_not_fence. simpl bool_decide.
  destruct (is_indented (String "#" (Str.repeat_nat "#" n ++ String ws text)))
    eqn:Ei; [apply indented_not_heading in Ei as [Ei _]; congruence|].
  rewrite Hfull. reflexivity.
Qed.

Lemma atx_heading_recognised_witness :
  extract_headings ["###" ++ String Char.TAB "Usage notes  "]
  = [(3%Z, "Usage notes", 0%nat)].
Proof.
  exact (proj2 (atx_heading_recognised 3 Char.TAB "Usage notes  "
                  ltac:(lia) eq_refl ltac:(discriminate) eq_refl eq_refl)).
Defined.

(** ** Lines of a document *)

Lemma is_newline_eq c : Char.is_newline c = true -> c = Char.NL.
Proof. each_char c. Qed.

Lemma str_app_assoc a b c : (a ++ b) ++ c = a ++ (b ++ c).
Proof.
  induction a as [|x a IH]; [reflexivity|].
  change (String x (((a ++ b) ++ c)) = String x (a ++ (b ++ c))).
  rewrite IH. reflexivity.
Qed.

Lemma split_lines_not_nil s : Str.split_lines s <> [].
Proof.
  destruct s as [|c s]; simpl; [discriminate|].
  destruct (Char.is_newline c); [discriminate|].
  destruct (Str.split_lines s); discriminate.
Qed.

Lemma split_lines_cons c s :
  Str.split_lines (String c s) =
    if Char.is_newline c then "" :: Str.split_lines s
    else match Str.split_lines s with
         | h :: t => String c h :: t
         | [] => [String c ""]
         end.
Proof. reflexivity. Qed.

Lemma join_lines_cons a b l :
  Str.join_lines (a :: b :: l) = a ++ Str.nl ++ Str.join_lines (b :: l).
Proof. reflexivity. Qed.

(** ['\n'.join(s.split('\n'))] is [s]. *)
Lemma join_split s : Str.join_lines (Str.split_lines s) = s.
Proof.
  induction s as [|c s IH]; [reflexivity|].
  rewrite split_lines_cons. destruct (Char.is_newline c) eqn:Ec.
  - pose proof (split_lines_not_nil s) as Hne.
    destruct (Str.split_lines s) as [|h t]; [contradiction|].
    rewrite join_lines_cons, IH, (is_newline_eq _ Ec). reflexivity.
  - pose proof (split_lines_not_nil s) as Hne.
    destruct (Str.split_lines s) as [|h t]; [contradiction|].
    destruct t as [|h' t].
    + simpl in *. rewrite IH. reflexivity.
    + rewrite join_lines_cons in *.
      change (String c h ++ Str.nl ++ Str.join_lines (h' :: t))
        with (String c (h ++ Str.nl ++ Str.join_lines (h' :: t))).
      rewrite IH. reflexivity.
Qed.

Lemma split_app_nl a b :
  Str.split_lines (a ++ Str.nl ++ b)
  = (Str.split_lines a ++ Str.split_lines b)%list.
Proof.
  induction a as [|c a IH]; [reflexivity|].
  change (String c a ++ Str.nl ++ b) with (String c (a ++ Str.nl ++ b)).
  rewrite !split_lines_cons, IH.
  destruct (Char.is_newline c); [reflexivity|].
  pose proof (split_lines_not_nil a) as Hne.
  destruct (Str.split_lines a) as [|h t]; [contradiction|reflexivity].
Qed.

Lemma split_join l :
  l <> [] -> Str.split_lines (Str.join_lines l) = l ≫= Str.split_lines.
Proof.
  induction l as [|a l IH]; [contradiction|]. intros _.
  destruct l as [|b l].
  - simpl. rewrite app_nil_r. reflexivity.
  - rewrite join_lines_cons, split_app_nl, IH by discriminate. reflexivity.
Qed.

Lemma split_one_line s : one_line s = true -> Str.split_lines s = [s].
Proof.
  induction s as [|c s IH]; [reflexivity|].
  intros [Hc Hs]%andb_true_iff. apply negb_true_iff in Hc.
  rewrite split_lines_cons, Hc, (IH Hs). reflexivity.
Qed.

Lemma split_lines_one_line s : Forall (fun l => one_line l = true) (Str.split_lines s).
Proof.
  induction s as [|c s IH]; [repeat constructor|].
  rewrite split_lines_cons. destruct (Char.is_newline c) eqn:Ec.
  - constructor; [reflexivity|exact IH].
  - pose proof (split_lines_not_nil s) as Hne.
    destruct (Str.split_lines s) as [|h t]; [contradiction|].
    inversion IH as [|? ? Hh Ht]; subst. constructor; [|exact Ht].
    unfold one_line in *. simpl. rewrite Ec, Hh. reflexivity.
Qed.

Lemma bind_one_line l :
  Forall (fun s => one_line s = true) l -> l ≫= Str.split_lines = l.
Proof.
  induction l as [|a l IH]; [reflexivity|].
  intros H. inversion H as [|? ? Ha Hl]; subst.
  rewrite bind_cons, (split_one_line _ Ha), (IH Hl). reflexivity.
Qed.

(** ** The marker scan: unmatched markers *)

Lemma find_toc_no_end i ts lines :
  Forall (fun l => is_toc_end l = false) lines ->
  (find_toc i ts lines).2 = None.
Proof.
  revert i ts. induction lines as [|l lines IH]; intros i ts H; [reflexivity|].
  inversion H as [|? ? Hl Hls]; subst. simpl. rewrite Hl. simpl.
  destruct (is_toc_start l); apply IH, Hls.
Qed.

Lemma unmatched_markers_kept_lemma (a1 a2 : list string) :
  Forall (fun l => is_toc_start l = false) a1 ->
  Forall (fun l => is_toc_end l = false) a2 ->
  remove_toc_block (a1 ++ a2) = (a1 ++ a2)%list.
Proof.
  intros H1 H2. unfold remove_toc_block.
  rewrite (find_toc_skip_none a1 0 a2 H1).
  pose proof (find_toc_no_end (0 + length a1) None a2 H2) as E.
  destruct (find_toc (0 + length a1) None a2) as [[s|] e]; simpl in E;
    subst e; reflexivity.
Qed.

(** Nothing is removed unless an end marker comes after a start marker:
    a document whose end markers all come before its first start marker
    (in particular a document with a lone start marker, or with end
    markers only) keeps all its lines. *)
Theorem unmatched_markers_kept (a1 a2 : list string) :
  Forall (fun l => is_toc_start l = false) a1 ->
  Forall (fun l => is_toc_end l = false) a2 ->
  remove_toc_block (a1 ++ a2) = (a1 ++ a2)%list.
Proof. apply unmatched_markers_kept_lemma. Qed.

Lemma unmatched_markers_kept_witness :
  remove_toc_block ["<!-- /TOC -->"; "# T"; "<!-- TOC -->"; "text"]
  = ["<!-- /TOC -->"; "# T"; "<!-- TOC -->"; "text"].
Proof.
  apply (unmatched_markers_kept ["<!-- /TOC -->"; "# T"] ["<!-- TOC -->"; "text"]);
    repeat constructor.
Defined.

(** ** insert_toc, line by line *)

Lemma remove_toc_block_Forall (P : string -> Prop) lines :
  Forall P lines -> Forall P (remove_toc_block lines).
Proof.
  intros H. unfold remove_toc_block.
  destruct (find_toc 0 None lines) as [[s|] [e|]]; try exact H.
  apply Forall_app. split; [apply Forall_take|apply Forall_drop]; exact H.
Qed.

Lemma no_heading_block_text toc content :
  (TOC_START ++ Str.nl ++ toc ++ Str.nl ++ TOC_END ++ Str.nl ++ Str.nl) ++ content
  = Str.join_lines [TOC_START; toc; TOC_END; ""] ++ Str.nl ++ content.
Proof.
  rewrite !join_lines_cons. cbn [Str.join_lines].
  change ("" ++ Str.nl ++ content) with (Str.nl ++ content).
  rewrite !str_app_assoc. reflexivity.
Qed.

Lemma insert_toc_split (content toc : string) :
  Str.split_lines (insert_toc content toc) =
    let lines := remove_toc_block (Str.split_lines content) in
    match find_first_heading 0 None lines with
    | Some i =>
        (take (i + 1) lines
         ++ "" :: TOC_START :: Str.split_lines toc
         ++ TOC_END :: drop (i + 1) lines)%list
    | None =>
        (TOC_START :: Str.split_lines toc
         ++ TOC_END :: "" :: Str.split_lines content)%list
    end.
Proof.
  unfold insert_toc. cbv zeta.
  pose proof (remove_toc_block_Forall _ _ (split_lines_one_line content)) as Hone.
  set (lines := remove_toc_block (Str.split_lines content)) in *.
  destruct (find_first_heading 0 None lines) as [i|].
  - rewrite split_join by (destruct (take (i + 1) lines); discriminate).
    rewrite !bind_app, !bind_cons.
    change ([] ≫= Str.split_lines) with (@nil string).
    rewrite (bind_one_line (take _ _)) by (apply Forall_take; exact Hone).
    rewrite (bind_one_line (drop _ _)) by (apply Forall_drop; exact Hone).
    rewrite app_nil_r.
    change (Str.split_lines "") with [""].
    change (Str.split_lines TOC_START) with [TOC_START].
    change (Str.split_lines TOC_END) with [TOC_END].
    rewrite <- !app_assoc. reflexivity.
  - rewrite no_heading_block_text, split_app_nl, split_join by discriminate.
    rewrite !bind_cons.
    change ([] ≫= Str.split_lines) with (@nil string).
    change (Str.split_lines "") with [""].
    change (Str.split_lines TOC_START) with [TOC_START].
    change (Str.split_lines TOC_END) with [TOC_END].
    rewrite app_nil_r, <- !app_assoc. reflexivity.
Qed.

(** The lines of the result.  With a heading: the lines up to the first
    heading, a blank line, the start marker, the lines of the table of
    contents, the end marker, and the remaining lines, where "the lines"
    are those of the document without its old block.  Without a heading:
    the start marker, the lines of the table, the end marker, a blank
    line, and all the lines of the document as it was. *)
Theorem insert_toc_lines (content toc : string) :
  Str.split_lines (insert_toc content toc) =
    let lines := remove_toc_block (Str.split_lines content) in
    match find_first_heading 0 None lines with
    | Some i =>
        (take (i + 1) lines
         ++ "" :: TOC_START :: Str.split_lines toc
         ++ TOC_END :: drop (i + 1) lines)%list
    | None =>
        (TOC_START :: Str.split_lines toc
         ++ TOC_END :: "" :: Str.split_lines content)%list
    end.
Proof. apply insert_toc_split. Qed.

(** ** Running insert_toc on its own output *)

Lemma remove_toc_block_of_block (a1 a2 b c : list string) (ls le : string) :
  Forall (fun l => is_toc_start l = false) a1 ->
  Forall (fun l => is_toc_end l = false) a2 ->
  is_toc_start ls = true ->
  Forall (fun l => is_toc_start l = false /\ is_toc_end l = false) b ->
  is_toc_end le = true ->
  remove_toc_block (a1 ++ a2 ++ ls :: b ++ le :: c) = (a1 ++ a2 ++ c)%list.
Proof.
  intros H1 H2 Hs Hb He. unfold remove_toc_block.
  rewrite (find_toc_block a1 a2 b c ls le H1 H2 Hs Hb He).
  rewrite (app_assoc a1 a2).
  rewrite take_app_length' by (rewrite length_app; reflexivity).
  replace (length a1 + length a2 + 1 + length b + 1)%nat
    with (length (a1 ++ a2) + (length (ls :: b) + 1))%nat
    by (rewrite length_app; simpl; lia).
  rewrite drop_app_add.
  change (ls :: b ++ le :: c)%list with ((ls :: b) ++ le :: c)%list.
  rewrite drop_app_add. simpl. rewrite app_assoc. reflexivity.
Qed.

Lemma find_first_heading_ge idx st lines i :
  find_first_heading idx st lines = Some i -> (idx <= i)%nat.
Proof.
  intros H. apply find_first_heading_sound in H as (k & _ & -> & _). lia.
Qed.

Lemma find_first_heading_cons idx st line rest :
  find_first_heading idx st (line :: rest) =
    if is_fence_line (Str.strip line) then
      find_first_heading (S idx) (fence_step st (Str.strip line)) rest
    else if bool_decide (is_Some st) then find_first_heading (S idx) st rest
    else if Re.heading_prefix line then Some idx
    else find_first_heading (S idx) st rest.
Proof. reflexivity. Qed.

(** The search only reads the lines up to the one it stops on. *)
Lemma find_first_heading_prefix idx st lines i rest :
  find_first_heading idx st lines = Some i ->
  find_first_heading idx st (take (i - idx + 1) lines ++ rest) = Some i.
Proof.
  revert idx st. induction lines as [|line lines IH]; intros idx st;
    [discriminate|].
  assert (forall st',
            find_first_heading (S idx) st' lines = Some i ->
            (take (i - idx + 1) (line :: lines) ++ rest)%list
            = line :: (take (i - S idx + 1) lines ++ rest)%list) as Hstep.
  { intros st' H'. apply find_first_heading_ge in H'.
    replace (i - idx + 1)%nat with (S (i - S idx + 1)) by lia. reflexivity. }
  rewrite find_first_heading_cons.
  destruct (is_fence_line (Str.strip line)) eqn:Ef.
  - intros H. rewrite (Hstep _ H), find_first_heading_cons, Ef.
    exact (IH _ _ H).
  - destruct (bool_decide (is_Some st)) eqn:Es.
    + intros H. rewrite (Hstep _ H), find_first_heading_cons, Ef, Es.
      exact (IH _ _ H).
    + destruct (Re.heading_prefix line) eqn:Ep.
      * intros [= <-]. rewrite Nat.sub_diag.
        change (take (0 + 1) (line :: lines) ++ rest)%list
          with (line :: (take 0 lines ++ rest))%list.
        rewrite find_first_heading_cons, Ef, Es, Ep. reflexivity.
      * intros H. rewrite (Hstep _ H), find_first_heading_cons, Ef, Es, Ep.
        exact (IH _ _ H).
Qed.

Lemma find_first_heading_lt lines i :
  find_first_heading 0 None lines = Some i -> (i < length lines)%nat.
Proof.
  intros H. apply find_first_heading_sound in H as (k & line & -> & Hl & _).
  exact (lookup_lt_Some _ _ _ Hl).
Qed.

Lemma insert_twice_lines (content toc toc' : string) (i : nat) :
  Forall not_marker (Str.split_lines content) ->
  Forall not_marker (Str.split_lines toc) ->
  find_first_heading 0 None (Str.split_lines content) = Some i ->
  Str.split_lines (insert_toc content toc)
  = (take (i + 1) (Str.split_lines content)
     ++ "" :: TOC_START :: Str.split_lines toc
     ++ TOC_END :: drop (i + 1) (Str.split_lines content))%list
  /\ Str.split_lines (insert_toc (insert_toc content toc) toc')
     = (take (i + 1) (Str.split_lines content)
        ++ "" :: TOC_START :: Str.split_lines toc'
        ++ TOC_END :: "" :: drop (i + 1) (Str.split_lines content))%list.
Proof.
  intros Hdoc Htoc Hfind.
  set (L := Str.split_lines content) in *.
  assert (Forall (fun l => is_toc_start l = false) L) as Hns
    by (eapply Forall_impl; [exact Hdoc|intros l [H _]; exact H]).
  assert (Forall (fun l => is_toc_end l = false) L) as Hne
    by (eapply Forall_impl; [exact Hdoc|intros l [_ H]; exact H]).
  assert (remove_toc_block L = L) as Hkeep.
  { rewrite <- (app_nil_r L) at 1 2.
    rewrite (unmatched_markers_kept_lemma L [] Hns); [reflexivity|constructor]. }
  assert (Str.split_lines (insert_toc content toc)
          = (take (i + 1) L ++ "" :: TOC_START :: Str.split_lines toc
             ++ TOC_END :: drop (i + 1) L)%list) as Hfirst.
  { rewrite insert_toc_split. cbv zeta. fold L. rewrite Hkeep, Hfind. reflexivity. }
  split; [exact Hfirst|].
  rewrite insert_toc_split. cbv zeta. rewrite Hfirst.
  assert (remove_toc_block
            (take (i + 1) L ++ "" :: TOC_START :: Str.split_lines toc
             ++ TOC_END :: drop (i + 1) L)
          = (take (i + 1) L ++ "" :: drop (i + 1) L)%list) as Hrem.
  { pose proof (remove_toc_block_of_block
                  (take (i + 1) L ++ [""]) [] (Str.split_lines toc)
                  (drop (i + 1) L) TOC_START TOC_END) as H.
    rewrite <- !app_assoc in H. simpl in H. apply H.
    - apply Forall_app. split; [apply Forall_take; exact Hns|].
      repeat constructor.
    - constructor.
    - reflexivity.
    - exact Htoc.
    - reflexivity. }
  rewrite Hrem.
  pose proof (find_first_heading_prefix 0 None L i ("" :: drop (i + 1) L) Hfind)
    as Hagain.
  rewrite Nat.sub_0_r in Hagain. rewrite Hagain.
  pose proof (find_first_heading_lt _ _ Hfind) as Hlt.
  rewrite take_app_length' by (rewrite length_take; lia).
  rewrite drop_app_length' by (rewrite length_take; lia).
  reflexivity.
Qed.

(** Inserting twice.  On a document without marker lines and with a
    heading, and for a table of contents without marker lines, the second
    insertion finds the block of the first, removes it from marker to
    marker, and inserts the new one at the same place: its result is what
    a single insertion gives, with one more blank line after the block. *)
Theorem second_insert_adds_blank_line
    (content toc toc' : string) (i : nat) :
  Forall not_marker (Str.split_lines content) ->
  Forall not_marker (Str.split_lines toc) ->
  find_first_heading 0 None (Str.split_lines content) = Some i ->
  Str.split_lines (insert_toc content toc)
  = (take (i + 1) (Str.split_lines content)
     ++ "" :: TOC_START :: Str.split_lines toc
     ++ TOC_END :: drop (i + 1) (Str.split_lines content))%list
  /\ Str.split_lines (insert_toc (insert_toc content toc) toc')
     = (take (i + 1) (Str.split_lines content)
        ++ "" :: TOC_START :: Str.split_lines toc'
        ++ TOC_END :: "" :: drop (i + 1) (Str.split_lines content))%list.
Proof. apply insert_twice_lines. Qed.

Lemma second_insert_adds_blank_line_witness :
  Str.split_lines
    (insert_toc (insert_toc (Str.join_lines ["intro"; "# T"; "text"]) "- a")
                "- b")
  = ["intro"; "# T"; ""; "<!-- TOC -->"; "- b"; "<!-- /TOC -->"; ""; "text"].
Proof.
  exact (proj2 (second_insert_adds_blank_line
                  (Str.join_lines ["intro"; "# T"; "text"]) "- a" "- b" 1
                  ltac:(repeat constructor) ltac:(repeat constructor) eq_refl)).
Defined.

(** ** Running the program on its own output *)

Lemma min_level_ext h t h' t' :
  h.1 = h'.1 -> t.*1 = t'.*1 -> min_level h t = min_level h' t'.
Proof.
  unfold min_level, h_level. intros -> Ht.
  generalize (h'.1.1) as acc. revert t' Ht.
  induction t as [|x t IH]; intros [|x' t'] Ht acc; try discriminate;
    [reflexivity|].
  rewrite !fmap_cons in Ht. injection Ht as Hx Ht. simpl. rewrite Hx.
  apply IH, Ht.
Qed.

Lemma toc_loop_ext mn mx counts hs hs' :
  hs.*1 = hs'.*1 -> toc_loop mn mx counts hs = toc_loop mn mx counts hs'.
Proof.
  revert hs' counts. induction hs as [|[[lv tx] ix] hs IH];
    intros [|[[lv' tx'] ix'] hs'] counts H; try discriminate; [reflexivity|].
  rewrite !fmap_cons in H. simpl in H. injection H as -> -> H. simpl.
  destruct (lv' >? mx)%Z; [apply IH, H|].
  destruct (dedup_anchor counts (heading_to_anchor tx')) as [anchor counts'].
  rewrite (IH _ _ H). reflexivity.
Qed.

(** The table of contents does not depend on the line indices. *)
Lemma generate_toc_ext hs hs' ml sf :
  hs.*1 = hs'.*1 -> generate_toc hs ml sf = generate_toc hs' ml sf.
Proof.
  intros H. rewrite !generate_toc_render.
  assert ((toc_headings hs sf).*1 = (toc_headings hs' sf).*1) as Ht.
  { unfold toc_headings. destruct sf; [|exact H].
    destruct hs, hs'; try discriminate; [reflexivity|].
    rewrite !fmap_cons in H. injection H as _ H. exact H. }
  destruct (toc_headings hs sf) as [|h t], (toc_headings hs' sf) as [|h' t'];
    try discriminate; [reflexivity|].
  rewrite !fmap_cons in Ht. injection Ht as Hh Ht. unfold render.
  rewrite (min_level_ext h t h' t' Hh Ht).
  rewrite (toc_loop_ext _ _ _ (h :: t) (h' :: t')); [reflexivity|].
  rewrite !fmap_cons, Hh, Ht. reflexivity.
Qed.

Lemma extract_from_shift idx idx' st lines :
  (extract_from idx st lines).*1 = (extract_from idx' st lines).*1.
Proof.
  revert idx idx' st. induction lines as [|line rest IH]; intros idx idx' st;
    [reflexivity|]. simpl.
  destruct (is_fence_line (Str.strip line)); [apply IH|].
  destruct (bool_decide (is_Some st)); [apply IH|].
  destruct (is_indented line); [apply IH|].
  destruct (Re.heading_full line) as [[n g2]|]; [|apply IH].
  rewrite !fmap_cons. f_equal. apply IH.
Qed.

Lemma extract_from_inert idx st xs rest :
  Forall inert xs ->
  (extract_from idx st (xs ++ rest)).*1 = (extract_from idx st rest).*1
  /\ scan_fences st xs = st.
Proof.
  revert idx. induction xs as [|x xs IH]; intros idx H; [split; reflexivity|].
  inversion H as [|? ? [Hf Hm] Hxs]; subst.
  destruct (IH (S idx) Hxs) as [IH1 IH2].
  rewrite scan_fences_cons, Hf. split; [|exact IH2].
  change ((x :: xs) ++ rest)%list with (x :: (xs ++ rest))%list.
  cbn [extract_from]. rewrite Hf, Hm.
  rewrite (extract_from_shift idx (S idx) st rest), <- IH1.
  destruct (bool_decide (is_Some st)); [reflexivity|].
  destruct (is_indented x); reflexivity.
Qed.

(** Inert lines put into a document leave the levels and texts of its
    headings as they were. *)
Lemma extract_headings_insert_inert a xs b :
  Forall inert xs ->
  (extract_headings (a ++ xs ++ b)).*1 = (extract_headings (a ++ b)).*1.
Proof.
  intros H. unfold extract_headings.
  rewrite (extract_from_app 0 None a (xs ++ b)), (extract_from_app 0 None a b).
  rewrite !fmap_app. f_equal. exact (proj1 (extract_from_inert _ _ _ _ H)).
Qed.

(** *** The lines of a generated table of contents *)

Lemma one_line_app a b : one_line (a ++ b) = one_line a && one_line b.
Proof. apply all_app. Qed.

Lemma uint_one_line d : one_line (NilEmpty.string_of_uint d) = true.
Proof. induction d; simpl; auto. Qed.

Lemma of_int_one_line n : one_line (Str.of_int n) = true.
Proof.
  unfold Str.of_int, NilEmpty.string_of_int.
  destruct (Z.to_int n); [|change (one_line (String "-" ?x)) with (one_line x)];
    apply uint_one_line.
Qed.

Lemma anchor_char_not_newline c :
  anchor_char c = true -> negb (Char.is_newline c) = true.
Proof. each_char c. Qed.

Lemma anchor_one_line text : one_line (heading_to_anchor text) = true.
Proof.
  destruct (anchor_shape text) as [H _].
  exact (all_impl _ _ _ anchor_char_not_newline H).
Qed.

Lemma dedup_anchor_one_line counts a :
  one_line a = true -> one_line (dedup_anchor counts a).1 = true.
Proof.
  intros Ha. unfold dedup_anchor. destruct (counts !! a); simpl; [|exact Ha].
  rewrite !one_line_app, Ha, of_int_one_line. reflexivity.
Qed.

Lemma toc_loop_entries mn mx counts hs :
  Forall (fun h => one_line (h_text h) = true) hs ->
  Forall toc_entry (toc_loop mn mx counts hs).
Proof.
  revert counts. induction hs as [|[[lv tx] ix] hs IH]; intros counts H;
    [constructor|].
  inversion H as [|? ? Hh Hhs]; subst. unfold h_text in Hh; simpl in Hh.
  simpl. destruct (lv >? mx)%Z; [apply IH, Hhs|].
  pose proof (dedup_anchor_one_line counts _ (anchor_one_line tx)) as Ha.
  destruct (dedup_anchor counts (heading_to_anchor tx)) as [anchor counts'].
  simpl in Ha. constructor; [|apply IH, Hhs].
  exists (Z.to_nat (lv - mn)), (tx ++ "](#" ++ anchor ++ ")").
  split; [reflexivity|]. rewrite !one_line_app, Hh, Ha. reflexivity.
Qed.

Lemma all_repeat_spaces p k :
  p " "%char = true -> Str.all p (Str.repeat_nat "  " k) = true.
Proof.
  intros Hp. induction k as [|k IH]; [reflexivity|].
  change (Str.repeat_nat "  " (S k))
    with (String " "%char (String " "%char (Str.repeat_nat "  " k))).
  simpl. rewrite Hp, IH. reflexivity.
Qed.

Lemma lstrip_app_all p x y :
  Str.all p x = true -> Str.lstrip p (x ++ y) = Str.lstrip p y.
Proof.
  induction x as [|c x IH]; [reflexivity|].
  intros [Hc Hx]%andb_true_iff.
  change (String c x ++ y) with (String c (x ++ y)). simpl.
  rewrite Hc. exact (IH Hx).
Qed.

Lemma toc_entry_strip line :
  toc_entry line -> exists r, Str.strip line = String "-"%char r.
Proof.
  intros (k & rest & -> & _). unfold Str.strip, Str.strip_with.
  rewrite (lstrip_app_all _ _ _ (all_repeat_spaces Char.isspace k eq_refl)).
  change (Str.lstrip Char.isspace ("- [" ++ rest))
    with (String "-"%char (" [" ++ rest)).
  apply rstrip_keeps_head. reflexivity.
Qed.

Lemma toc_entry_starts line : toc_entry line -> starts Char.is_hash line = false.
Proof. intros (k & rest & -> & _). destruct k; reflexivity. Qed.

Lemma toc_entry_one_line line : toc_entry line -> one_line line = true.
Proof.
  intros (k & rest & -> & Hr). rewrite !one_line_app, Hr.
  unfold one_line. rewrite (all_repeat_spaces _ k eq_refl). reflexivity.
Qed.

Lemma toc_entry_inert line : toc_entry line -> inert line.
Proof.
  intros H. destruct (toc_entry_strip _ H) as [r Hr]. split.
  - rewrite Hr. unfold is_fence_line.
    change "```" with (String "`"%char "``"). change "~~~" with (String "~"%char "~~").
    rewrite !startswith_cons. reflexivity.
  - pose proof (hashes_1_6_app "" line eq_refl (toc_entry_starts _ H)) as E.
    change ("" ++ line) with line in E. unfold Re.heading_full. rewrite E.
    reflexivity.
Qed.

Lemma toc_entry_not_marker line : toc_entry line -> not_marker line.
Proof.
  intros H. destruct (toc_entry_strip _ H) as [r Hr].
  unfold not_marker, is_toc_start, is_toc_end. rewrite Hr.
  split; apply String.eqb_neq; discriminate.
Qed.

(** A table of contents rendered from headings whose texts hold no
    newline, when it is not empty, splits back into the lines of the
    loop, each of the shape "indent- [...". *)
Lemma generate_toc_entries hs ml sf :
  Forall (fun h => one_line (h_text h) = true) hs ->
  generate_toc hs ml sf <> "" ->
  Forall toc_entry (Str.split_lines (generate_toc hs ml sf)).
Proof.
  intros Hhs Hne. rewrite generate_toc_render in *.
  assert (Forall (fun h => one_line (h_text h) = true) (toc_headings hs sf)) as Ht.
  { unfold toc_headings. destruct sf; [|exact Hhs].
    destruct hs; [constructor|]. inversion Hhs; assumption. }
  destruct (toc_headings hs sf) as [|h t]; [contradiction|].
  unfold render in *.
  pose proof (toc_loop_entries (min_level h t) ml ∅ (h :: t) Ht) as He.
  destruct (toc_loop (min_level h t) ml ∅ (h :: t)) as [|l ls] eqn:E;
    [contradiction|].
  rewrite split_join by discriminate. rewrite bind_one_line; [exact He|].
  eapply Forall_impl; [exact He|]. apply toc_entry_one_line.
Qed.

Lemma extract_headings_one_line lines :
  Forall (fun h => one_line (h_text h) = true) (extract_headings lines).
Proof.
  apply Forall_forall. intros h Hin.
  apply extract_headings_member in Hin as (line & n & g2 & _ & _ & _ & Hm & _ & ->).
  apply heading_full_bounds in Hm as [_ Hg].
  unfold Str.strip, Str.strip_with, one_line. apply all_rstrip, all_lstrip, Hg.
Qed.

Lemma marker_lines_inert : inert "" /\ inert TOC_START /\ inert TOC_END.
Proof. repeat split. Qed.

(** Running the program twice.  On a document without marker lines for
    which a table of contents is generated, the first run puts a blank
    line and the block after the first heading; the second run generates
    the same table, and its result is that of the first run with one more
    blank line after the block.  The two results always differ. *)
Theorem rerun_adds_blank_line
    (content : string) (ml : Z) (sf : bool) (d1 : string) :
  Forall not_marker (Str.split_lines content) ->
  process content ml sf = Some d1 ->
  exists i : nat,
    find_first_heading 0 None (Str.split_lines content) = Some i
    /\ Str.split_lines d1
       = (take (i + 1) (Str.split_lines content)
          ++ "" :: TOC_START :: Str.split_lines (toc_of content ml sf)
          ++ TOC_END :: drop (i + 1) (Str.split_lines content))%list
    /\ toc_of d1 ml sf = toc_of content ml sf
    /\ exists d2 : string,
         process d1 ml sf = Some d2
         /\ Str.split_lines d2
            = (take (i + 1) (Str.split_lines content)
               ++ "" :: TOC_START :: Str.split_lines (toc_of content ml sf)
               ++ TOC_END :: "" :: drop (i + 1) (Str.split_lines content))%list
         /\ d2 <> d1.
Proof.
  intros Hdoc Hrun. unfold process in Hrun.
  set (toc := toc_of content ml sf) in *.
  destruct (String.eqb_spec toc "") as [|Hne]; [discriminate|].
  injection Hrun as <-.
  set (L := Str.split_lines content) in *.
  assert (Forall toc_entry (Str.split_lines toc)) as Hentries
    by (apply generate_toc_entries; [apply extract_headings_one_line|exact Hne]).
  assert (exists i, find_first_heading 0 None L = Some i) as [i Hfind].
  { unfold toc, toc_of in Hne. fold L in Hne.
    destruct (extract_headings L) as [|h t] eqn:E; [contradiction|].
    destruct (find_before_extract 0 None L h t E) as (i & Hi & _). eauto. }
  assert (Forall not_marker (Str.split_lines toc)) as Hnm
    by (eapply Forall_impl; [exact Hentries|apply toc_entry_not_marker]).
  destruct (insert_twice_lines content toc toc i Hdoc Hnm Hfind) as [H1 H2].
  fold L in H1, H2.
  assert (toc_of (insert_toc content toc) ml sf = toc) as Htoc.
  { assert (Forall inert ("" :: TOC_START :: Str.split_lines toc ++ [TOC_END]))
      as Hinert.
    { destruct marker_lines_inert as (He & Hs & Hend).
      repeat (constructor; [assumption|]).
      apply Forall_app. split; [|repeat constructor; assumption].
      eapply Forall_impl; [exact Hentries|apply toc_entry_inert]. }
    pose proof (extract_headings_insert_inert (take (i + 1) L) _
                  (drop (i + 1) L) Hinert) as E.
    rewrite take_drop in E. simpl in E. rewrite <- app_assoc in E. simpl in E.
    unfold toc_of at 1. rewrite H1.
    exact (generate_toc_ext _ _ ml sf E). }
  exists i. split; [exact Hfind|]. split; [exact H1|]. split; [exact Htoc|].
  exists (insert_toc (insert_toc content toc) toc).
  split; [|split; [exact H2|]].
  - unfold process. rewrite Htoc.
    destruct (String.eqb_spec toc "") as [|_]; [contradiction|reflexivity].
  - intros E. apply (f_equal Str.split_lines) in E. rewrite H1, H2 in E.
    apply (f_equal length) in E. rewrite !length_app in E. simpl in E.
    rewrite !length_app in E. simpl in E. lia.
Qed.

Lemma rerun_adds_blank_line_witness :
  exists d2 : string,
    process (refresh (Str.join_lines ["# T"; "## A"; "text"])) 3 true = Some d2
    /\ Str.split_lines d2
       = ["# T"; ""; "<!-- TOC -->"; "- [A](#a)"; "<!-- /TOC -->"; "";
          "## A"; "text"].
Proof.
  destruct (rerun_adds_blank_line (Str.join_lines ["# T"; "## A"; "text"]) 3 true
              (refresh (Str.join_lines ["# T"; "## A"; "text"]))
              ltac:(repeat constructor) eq_refl)
    as (i & Hi & _ & _ & d2 & Hrun & Hlines & _).
  exists d2. split; [exact Hrun|].
  injection Hi as <-. exact Hlines.
Defined.

(** ** generate_toc: one line per rendered heading *)

(** For headings whose texts hold no newline (those of extract_headings
    are such), the table of contents has exactly one line for each
    heading that remains after the skip_first drop and has a level within
    max_level, as soon as there is one. *)
Theorem generate_toc_line_count (hs : list heading) (ml : Z) (sf : bool) :
  Forall (fun h => one_line (h_text h) = true) hs ->
  Exists (fun h => (h_level h <= ml)%Z) (toc_headings hs sf) ->
  length (Str.split_lines (generate_toc hs ml sf))
  = length (filter (fun h => (h_level h <= ml)%Z) (toc_headings hs sf)).
Proof.
  intros Hhs Hex. rewrite generate_toc_render.
  assert (Forall (fun h => one_line (h_text h) = true) (toc_headings hs sf)) as Ht.
  { unfold toc_headings. destruct sf; [|exact Hhs].
    destruct hs; [constructor|]. inversion Hhs; assumption. }
  destruct (toc_headings hs sf) as [|h t]; [inversion Hex|].
  unfold render.
  pose proof (toc_loop_entries (min_level h t) ml ∅ (h :: t) Ht) as He.
  pose proof (toc_loop_lines (min_level h t) ml [] ∅ (h :: t) counts_of_nil) as El.
  apply (f_equal length) in El. rewrite length_imap in El. rewrite <- El.
  destruct (toc_loop (min_level h t) ml ∅ (h :: t)) as [|l ls] eqn:E.
  - exfalso. apply toc_loop_nil in E. apply Exists_exists in Hex as (x & Hx & Hk).
    rewrite Forall_forall in E. specialize (E _ Hx). lia.
  - rewrite split_join by discriminate. rewrite bind_one_line; [reflexivity|].
    eapply Forall_impl; [exact He|]. apply toc_entry_one_line.
Qed.

Lemma generate_toc_line_count_witness :
  length (Str.split_lines
            (generate_toc [(1%Z, "T", 0%nat); (2%Z, "A", 1%nat);
                           (5%Z, "deep", 2%nat); (3%Z, "B", 3%nat)] 3 true))
  = 2%nat.
Proof.
  exact (generate_toc_line_count
           [(1%Z, "T", 0%nat); (2%Z, "A", 1%nat); (5%Z, "deep", 2%nat);
            (3%Z, "B", 3%nat)] 3 true
           ltac:(repeat constructor)
           ltac:(apply Exists_cons_hd; vm_compute; discriminate)).
Defined.

(** ** main *)

Lemma insert_toc_has_block content toc :
  exists pre post : list string,
    Str.split_lines (insert_toc content toc)
    = (pre ++ TOC_START :: Str.split_lines toc ++ TOC_END :: post)%list.
Proof.
  rewrite insert_toc_split. cbv zeta.
  destruct (find_first_heading 0 None _) as [i|].
  - eexists (_ ++ [""])%list, _. rewrite <- app_assoc. reflexivity.
  - exists [], ("" :: Str.split_lines content). reflexivity.
Qed.

(** When nothing is to be rendered (no heading, only the skipped first
    heading, or only headings deeper than --levels), a run with valid
    --levels writes no file and prints nothing on standard output; it
    reports it on standard error and exits with status 0. *)
Theorem main_nothing_to_render
    (a : Cli.args) (content : string) (write_error : option string) :
  (1 <= Cli.levels a <= 6)%Z ->
  Forall (fun h => (Cli.levels a < h_level h)%Z)
         (toc_headings (extract_headings (Str.split_lines content))
                       (negb (Cli.include_first a))) ->
  Cli.main a (Cli.ReadOk content) write_error
  = {| Cli.exit_code := 0; Cli.stdout := [];
       Cli.stderr := ["No headings found to generate TOC"];
       Cli.write_call := None |}.
Proof.
  intros [H1 H6] Hnone. unfold Cli.main.
  destruct (Z.leb_spec 1 (Cli.levels a)); [|lia].
  destruct (Z.leb_spec (Cli.levels a) 6); [|lia]. simpl negb at 1. cbv iota.
  rewrite generate_toc_render.
  rewrite (proj2 (render_empty_iff _ _) Hnone). reflexivity.
Qed.

Lemma main_nothing_to_render_witness :
  Cli.main {| Cli.file := "README.md"; Cli.output := None; Cli.levels := 3;
              Cli.to_stdout := false; Cli.include_first := false |}
           (Cli.ReadOk (Str.join_lines ["# Title"; "```"; "## hidden"; "```"]))
           None
  = {| Cli.exit_code := 0; Cli.stdout := [];
       Cli.stderr := ["No headings found to generate TOC"];
       Cli.write_call := None |}.
Proof.
  apply main_nothing_to_render; [simpl; lia|]. vm_compute. constructor.
Defined.

(** What a run writes.  A file is written only when --levels is valid,
    the file was read, a non-empty table of contents was generated and
    --stdout is absent; the path is the -o path, or the input file when
    -o is absent or empty; the data is insert_toc of the content read,
    and its lines hold the start marker, the lines of the table and the
    end marker in a row. *)
Theorem main_write_call
    (a : Cli.args) (read : Cli.read_result) (write_error : option string)
    (path data : string) :
  Cli.write_call (Cli.main a read write_error) = Some (path, data) ->
  (1 <= Cli.levels a <= 6)%Z
  /\ Cli.to_stdout a = false
  /\ path = Cli.output_path a
  /\ exists content : string,
       read = Cli.ReadOk content
       /\ toc_of content (Cli.levels a) (negb (Cli.include_first a)) <> ""
       /\ data = insert_toc content
                   (toc_of content (Cli.levels a) (negb (Cli.include_first a)))
       /\ exists pre post : list string,
            Str.split_lines data
            = (pre ++ TOC_START
                   :: Str.split_lines
                        (toc_of content (Cli.levels a)
                                (negb (Cli.include_first a)))
                   ++ TOC_END :: post)%list.
Proof.
  unfold Cli.main.
  destruct (Z.leb_spec 1 (Cli.levels a)); [|discriminate].
  destruct (Z.leb_spec (Cli.levels a) 6); [|discriminate]. simpl negb at 1.
  cbv iota. destruct read as [content| |]; try discriminate.
  fold (toc_of content (Cli.levels a) (negb (Cli.include_first a))).
  destruct (String.eqb_spec
              (toc_of content (Cli.levels a) (negb (Cli.include_first a))) "")
    as [|Hne]; [discriminate|].
  destruct (Cli.to_stdout a); [discriminate|].
  intros Hw.
  assert (path = Cli.output_path a
          /\ data = insert_toc content
                      (toc_of content (Cli.levels a) (negb (Cli.include_first a))))
    as [-> ->] by (destruct write_error; injection Hw as <- <-; auto).
  split; [lia|]. split; [reflexivity|]. split; [reflexivity|].
  exists content. split; [reflexivity|]. split; [exact Hne|].
  split; [reflexivity|]. apply insert_toc_has_block.
Qed.

Lemma main_write_call_witness :
  Cli.output_path {| Cli.file := "README.md"; Cli.output := Some "";
                     Cli.levels := 2; Cli.to_stdout := false;
                     Cli.include_first := true |} = "README.md"
  /\ (1 <= 2 <= 6)%Z.
Proof.
  pose proof (main_write_call
                {| Cli.file := "README.md"; Cli.output := Some "";
                   Cli.levels := 2; Cli.to_stdout := false;
                   Cli.include_first := true |}
                (Cli.ReadOk "# T") None "README.md"
                (insert_toc "# T" "- [T](#t)") eq_refl) as (H & _).
  split; [reflexivity|exact H].
Defined.
